(** * Pumba: the container client and the command surface

    A shallow embedding of the two Go packages of the repository that carry
    behaviour: package [container] (the Docker client adapter: kill, stop,
    remove, pause, netem) and package [main] (target arguments and command
    validation).  Effects are explicit: every log call, every call to the
    Docker API with its reply, every [time.Sleep] and every start of the
    recurrent scheduler is appended to a trace, and the Docker daemon is an
    arbitrary function of the history. *)

From Stdlib Require Import String Ascii List ZArith NArith Lia Bool.
Import ListNotations.
Local Open Scope string_scope.
Local Open Scope list_scope.
Local Open Scope Z_scope.

(** Go's [+] on strings. *)
Infix "+++" := String.append (right associativity, at level 60).

(** ** The Go library functions the program calls *)

(** Package [strings], on byte strings. *)
Module strings.

Definition HasPrefix (s prefix : string) : bool := String.prefix prefix s.

Definition lowerByte (a : ascii) : ascii :=
  let n := N_of_ascii a in
  if (65 <=? n)%N && (n <=? 90)%N then ascii_of_N (n + 32) else a.

(** [strings.ToLower]; the program applies it to netem specifications and
    to printed IP addresses, which are ASCII. *)
Fixpoint ToLower (s : string) : string :=
  match s with
  | EmptyString => EmptyString
  | String a s' => String (lowerByte a) (ToLower s')
  end.

Fixpoint splitOn (sep : ascii) (s : string) : list string :=
  match s with
  | EmptyString => [EmptyString]
  | String a s' =>
      if Ascii.eqb a sep then EmptyString :: splitOn sep s'
      else match splitOn sep s' with
           | [] => [String a EmptyString]
           | w :: ws => String a w :: ws
           end
  end.

(** [strings.Split] for a separator of one byte, the only kind the program
    passes (a single space). *)
Definition Split (s sep : string) : list string :=
  match sep with
  | String a EmptyString => splitOn a s
  | _ => [s]
  end.

Fixpoint inCutset (a : ascii) (cutset : string) : bool :=
  match cutset with
  | EmptyString => false
  | String b cutset' => Ascii.eqb a b || inCutset a cutset'
  end.

Fixpoint trimLeftList (l : list ascii) (cutset : string) : list ascii :=
  match l with
  | [] => []
  | a :: l' => if inCutset a cutset then trimLeftList l' cutset else l
  end.

Definition TrimLeft (s cutset : string) : string :=
  string_of_list_ascii (trimLeftList (list_ascii_of_string s) cutset).

Definition TrimRight (s cutset : string) : string :=
  string_of_list_ascii
    (rev (trimLeftList (rev (list_ascii_of_string s)) cutset)).

(** [strings.Trim(s, cutset)]: every leading and every trailing byte that
    occurs in [cutset] is removed. *)
Definition Trim (s cutset : string) : string :=
  TrimRight (TrimLeft s cutset) cutset.

End strings.

(** Package [fmt]: the one verb the program uses is [%s]. *)
Module fmt.

Fixpoint Sprintf (format : string) (args : list string) : string :=
  match format with
  | EmptyString => EmptyString
  | String "%" (String "s" rest) =>
      match args with
      | a :: args' => a +++ Sprintf rest args'
      | [] => "%!s(MISSING)" +++ Sprintf rest []
      end
  | String c rest => String c (Sprintf rest args)
  end.

End fmt.

(** Package [time]: a [Duration] is a signed 64-bit count of nanoseconds. *)
Definition Duration := Z.

Module time.
Definition Nanosecond : Duration := 1.
Definition Microsecond : Duration := 1000.
Definition Millisecond : Duration := 1000000.
Definition Second : Duration := 1000000000.
Definition Minute : Duration := 60 * Second.
Definition Hour : Duration := 60 * Minute.
End time.

(** Arithmetic on Go's [int64] wraps around. *)
Definition wrap64 (z : Z) : Z := (z + 2 ^ 63) mod 2 ^ 64 - 2 ^ 63.

(** A Go [error] is nil or carries a message. *)
Definition error := option string.
Definition nil : error := None.

Inductive Result (A : Type) : Type :=
| Ok (a : A)
| Err (e : string).
Arguments Ok {A} a.
Arguments Err {A} e.

(** ** Values exchanged with the Docker API *)

(** [enginetypes.ContainerRemoveOptions] *)
Record ContainerRemoveOptions := {
  RemoveVolumes : bool;
  RemoveLinks : bool;
  Force : bool
}.

(** [enginetypes.ExecConfig], the two fields the client sets. *)
Record ExecConfig := {
  Privileged : bool;
  Cmd : list string
}.

(** What an inspect of a container reports: [ci.State.Running]. *)
Record ContainerInfo := {
  Running : bool
}.

(** ** Traces *)

Inductive Level := DebugLevel | InfoLevel | ErrorLevel.

(** An argument handed to a logging call. *)
Inductive Arg :=
| AStr (s : string)
| ADur (d : Duration)
| AStrs (l : list string).

Inductive Call :=
| CKillContainer (id signal : string)
| CInspectContainer (id : string)
| CPauseContainer (id : string)
| CUnpauseContainer (id : string)
| CContainerRemove (id : string) (opts : ContainerRemoveOptions)
| CContainerExecCreate (id : string) (config : ExecConfig)
| CContainerExecStart (execID : string).

Inductive Reply :=
| RNil
| RErr (e : string)
| RInfo (ci : ContainerInfo)
| RExecID (execID : string).

(** The command values of package [action], as [main] builds them. *)
Inductive Command :=
| CommandKill (Signal : string)
| CommandPause (Duration_ : Duration)
| CommandNetemDelay (NetInterface : string) (IP : option string)
    (Duration_ : Duration) (Amount Variation Correlation : Z)
| CommandRemove (Force_ Links Volumes : bool)
| CommandStop (WaitTime : Z).

Inductive Event :=
| ELog (level : Level) (format : string) (args : list Arg)
| ESleep (d : Duration)
| ECall (c : Call) (r : Reply)
| ERunChaosCommand (interval : Duration) (cmd : Command)
    (names : list string) (pattern : string).

Definition Trace := list Event.

(** The text of a logged line, given how the logging backend prints a
    duration and a list of strings. *)
Section Rendering.
Variable durationString : Duration -> string.
Variable stringsString : list string -> string.

Definition renderArg (a : Arg) : string :=
  match a with
  | AStr s => s
  | ADur d => durationString d
  | AStrs l => stringsString l
  end.

Definition renderLog (format : string) (args : list Arg) : string :=
  fmt.Sprintf format (map renderArg args).
End Rendering.

(** ** The world and the monad of the program *)

Record World := {
  trace : Trace;
  clock : Z;            (* virtual time, in nanoseconds *)
  gInterval : Duration  (* the global of package main *)
}.

Definition World0 : World := {| trace := []; clock := 0; gInterval := 0 |}.

(** A computation reads and extends the world; [None] is a computation
    that does not return: a loop that ran out of fuel, or a panic. *)
Definition M (A : Type) : Type := World -> option (A * World).

Definition ret {A} (a : A) : M A := fun w => Some (a, w).

Definition bind {A B} (m : M A) (k : A -> M B) : M B :=
  fun w => match m w with
           | Some (a, w') => k a w'
           | None => None
           end.

Declare Scope go_scope.
Delimit Scope go_scope with go.
Notation "x <- m ;; k" := (bind m (fun x => k))
  (at level 61, m at next level, right associativity) : go_scope.
Notation "m ;; k" := (bind m (fun _ => k))
  (at level 61, right associativity) : go_scope.
Local Open Scope go_scope.

Definition emit (e : Event) : M unit :=
  fun w => Some (tt, {| trace := trace w ++ [e]; clock := clock w;
                        gInterval := gInterval w |}).

Definition now : M Z := fun w => Some (clock w, w).

(** Package [log] (logrus). *)
Module log.
Definition Infof (format : string) (args : list Arg) : M unit :=
  emit (ELog InfoLevel format args).
Definition Debugf (format : string) (args : list Arg) : M unit :=
  emit (ELog DebugLevel format args).
(** [log.Error(err)] prints the text of the error. *)
Definition Error (e : string) : M unit :=
  emit (ELog ErrorLevel "%s" [AStr e]).
End log.

(** [time.Sleep(d)]: the clock advances by [d]; a non-positive [d] returns
    at once. *)
Definition Sleep (d : Duration) : M unit :=
  fun w => Some (tt, {| trace := trace w ++ [ESleep d];
                        clock := clock w + Z.max 0 d;
                        gInterval := gInterval w |}).

(** ** The Docker API, as the client consumes it

    Each method answers from the history of the run, so a daemon may answer
    the same call differently at different moments; [elapsed] is the time
    the call that ends the given trace took. *)

Module dockerclient.
(** [github.com/samalba/dockerclient.Client], the methods used. *)
Record Client := {
  KillContainer : Trace -> string -> string -> error;
  InspectContainer : Trace -> string -> Result ContainerInfo;
  PauseContainer : Trace -> string -> error;
  UnpauseContainer : Trace -> string -> error;
  elapsed : Trace -> N
}.
End dockerclient.

Module engineapi.
(** [github.com/docker/engine-api/client.ContainerAPIClient], the methods
    used. *)
Record ContainerAPIClient := {
  ContainerRemove : Trace -> string -> ContainerRemoveOptions -> error;
  ContainerExecCreate : Trace -> string -> ExecConfig -> Result string;
  ContainerExecStart : Trace -> string -> error;
  elapsed : Trace -> N
}.
End engineapi.

Definition replyOfError (e : error) : Reply :=
  match e with
  | None => RNil
  | Some msg => RErr msg
  end.

Definition replyOfInfo (r : Result ContainerInfo) : Reply :=
  match r with
  | Ok ci => RInfo ci
  | Err msg => RErr msg
  end.

Definition replyOfExecID (r : Result string) : Reply :=
  match r with
  | Ok id => RExecID id
  | Err msg => RErr msg
  end.

(** A call to the daemon: the answer is recorded with the call, and the
    clock advances by the time the call took. *)
Definition perform {R} (c : Call) (answer : Trace -> R) (reply : R -> Reply)
    (took : Trace -> N) : M R :=
  fun w =>
    let r := answer (trace w) in
    let tr := trace w ++ [ECall c (reply r)] in
    Some (r, {| trace := tr; clock := clock w + Z.of_N (took tr);
                gInterval := gInterval w |}).

(** Package [net]: an IP address is identified with the text its [String]
    method prints; the nil address is [None]. *)
Module net.
Definition IP := string.
Definition String_ (ip : IP) : string := ip.
End net.

(** ** Package container *)

Module container.

Definition defaultStopSignal := "SIGTERM".
Definition defaultKillSignal := "SIGKILL".
Definition dryRunPrefix := "DRY: ".

(** Modelled from the spec: the [Container] type and its methods [Name],
    [ID] and [StopSignal] are declared in a file of the package that is
    not among the sources.  A container carries a stable identifier, a
    display name and a label mapping with a recognized stop-signal label;
    the tests of the client build it from those three and name the label
    [com.gaiaadm.pumba.stop-signal]. *)
Record Container := {
  containerName : string;
  containerId : string;
  containerLabels : list (string * string)
}.

Definition signalLabel := "com.gaiaadm.pumba.stop-signal".

Fixpoint lookupLabel (key : string) (labels : list (string * string))
  : option string :=
  match labels with
  | [] => None
  | (k, v) :: rest => if String.eqb k key then Some v else lookupLabel key rest
  end.

Definition Name (c : Container) : string := containerName c.
Definition ID (c : Container) : string := containerId c.
Definition StopSignal (c : Container) : string :=
  match lookupLabel signalLabel (containerLabels c) with
  | Some val => val
  | None => ""
  end.

Record dockerClient := {
  api : dockerclient.Client;
  apiClient : engineapi.ContainerAPIClient
}.

Section Client.
Variable client : dockerClient.

(** The calls [client.api.X(...)] and [client.apiClient.X(...)]. *)
Definition api_KillContainer (id signal : string) : M error :=
  perform (CKillContainer id signal)
    (fun tr => dockerclient.KillContainer (api client) tr id signal)
    replyOfError (dockerclient.elapsed (api client)).

Definition api_InspectContainer (id : string) : M (Result ContainerInfo) :=
  perform (CInspectContainer id)
    (fun tr => dockerclient.InspectContainer (api client) tr id)
    replyOfInfo (dockerclient.elapsed (api client)).

Definition api_PauseContainer (id : string) : M error :=
  perform (CPauseContainer id)
    (fun tr => dockerclient.PauseContainer (api client) tr id)
    replyOfError (dockerclient.elapsed (api client)).

Definition api_UnpauseContainer (id : string) : M error :=
  perform (CUnpauseContainer id)
    (fun tr => dockerclient.UnpauseContainer (api client) tr id)
    replyOfError (dockerclient.elapsed (api client)).

Definition apiClient_ContainerRemove (id : string)
    (opts : ContainerRemoveOptions) : M error :=
  perform (CContainerRemove id opts)
    (fun tr => engineapi.ContainerRemove (apiClient client) tr id opts)
    replyOfError (engineapi.elapsed (apiClient client)).

Definition apiClient_ContainerExecCreate (id : string)
    (config : ExecConfig) : M (Result string) :=
  perform (CContainerExecCreate id config)
    (fun tr => engineapi.ContainerExecCreate (apiClient client) tr id config)
    replyOfExecID (engineapi.elapsed (apiClient client)).

Definition apiClient_ContainerExecStart (execID : string) : M error :=
  perform (CContainerExecStart execID)
    (fun tr => engineapi.ContainerExecStart (apiClient client) tr execID)
    replyOfError (engineapi.elapsed (apiClient client)).

Definition KillContainer (c : Container) (signal : string)
    (dryrun : bool) : M error :=
  let prefix := if dryrun then dryRunPrefix else "" in
  log.Infof "%sKilling %s (%s) with signal %s"
    [AStr prefix; AStr (Name c); AStr (ID c); AStr signal] ;;
  if negb dryrun then
    err <- api_KillContainer (ID c) signal ;;
    match err with
    | Some e => ret (Some e)
    | None => ret nil
    end
  else ret nil.

(** The loop of [waitForStop].  The channel of [time.After] is filled by
    the runtime when it runs the timer, and the runtime of the Go releases
    that built this program (those before 1.23) runs timers while the
    goroutine waits: the select that follows [time.After] at once finds the
    channel empty, whatever the duration, so the first round always takes
    the default branch and inspects.  Every later round comes after an
    inspect and a sleep of one second, and finds the channel filled once the
    clock has reached [deadline].  Every round that does not return sleeps
    one second, so [fuel] rounds are enough when [fuel] seconds exceed the
    time left. *)
Fixpoint waitLoop (fuel : nat) (first : bool) (c : Container) (deadline : Z)
  : M error :=
  match fuel with
  | O => fun _ => None
  | S fuel' =>
      t <- now ;;
      if negb first && (deadline <=? t) then ret nil
      else
        r <- api_InspectContainer (ID c) ;;
        match r with
        | Err e => ret (Some e)
        | Ok ci =>
            if negb (Running ci) then ret nil
            else Sleep (1 * time.Second) ;; waitLoop fuel' false c deadline
        end
  end.

Definition waitFuel (d : Duration) : nat := Z.to_nat (d / time.Second) + 2.

Definition waitForStop (c : Container) (waitTime : Z) : M error :=
  let d := wrap64 (waitTime * time.Second) in
  t <- now ;;
  waitLoop (waitFuel d) true c (t + d).

Definition StopContainer (c : Container) (timeout : Z)
    (dryrun : bool) : M error :=
  let signal := StopSignal c in
  let signal := if String.eqb signal "" then defaultStopSignal else signal in
  let prefix := if dryrun then dryRunPrefix else "" in
  log.Infof "%sStopping %s (%s) with %s"
    [AStr prefix; AStr (Name c); AStr (ID c); AStr signal] ;;
  if negb dryrun then
    err <- api_KillContainer (ID c) signal ;;
    match err with
    | Some e => ret (Some e)
    | None =>
        (* Wait for container to exit, but proceed anyway after the
           timeout elapses *)
        err <- waitForStop c timeout ;;
        match err with
        | Some e =>
            log.Debugf "Error waiting for container %s (%s) to stop: ''%s'"
              [AStr (Name c); AStr (ID c); AStr e]
        | None => ret tt
        end ;;
        log.Debugf "Killing container %s with %s"
          [AStr (ID c); AStr defaultKillSignal] ;;
        err <- api_KillContainer (ID c) defaultKillSignal ;;
        match err with
        | Some e => ret (Some e)
        | None =>
            (* Wait for container to be removed. In this case an error
               is a good thing *)
            err <- waitForStop c timeout ;;
            match err with
            | None =>
                ret (Some (fmt.Sprintf
                             "Container %s (%s) could not be stopped"
                             [Name c; ID c]))
            | Some _ => ret nil
            end
        end
    end
  else ret nil.

Definition RemoveContainer (c : Container) (force links volumes : bool)
    (dryrun : bool) : M error :=
  let prefix := if dryrun then dryRunPrefix else "" in
  log.Infof "%sRemoving container %s" [AStr prefix; AStr (ID c)] ;;
  if negb dryrun then
    let removeOpts := {| RemoveVolumes := links;
                         RemoveLinks := volumes;
                         Force := force |} in
    apiClient_ContainerRemove (ID c) removeOpts
  else ret nil.

Definition execOnContainer (c : Container) (execCmd : string)
    (privileged : bool) : M error :=
  let config := {| Privileged := privileged;
                   Cmd := strings.Split execCmd " " |} in
  r <- apiClient_ContainerExecCreate (ID c) config ;;
  match r with
  | Err e => ret (Some e)
  | Ok execID =>
      log.Debugf "Starting Exec %s (%s)" [AStr execCmd; AStr execID] ;;
      apiClient_ContainerExecStart execID
  end.

Definition startNetemContainer (c : Container)
    (netInterface netemCmd : string) (dryrun : bool) : M error :=
  let prefix := if dryrun then dryRunPrefix else "" in
  log.Infof "%sStart netem for container %s on '%s' with command '%s'"
    [AStr prefix; AStr (ID c); AStr netInterface; AStr netemCmd] ;;
  if negb dryrun then
    let netemCommand := "tc qdisc add dev " +++ netInterface +++
                        " root netem " +++ strings.ToLower netemCmd in
    log.Debugf "netem command '%s'" [AStr netemCommand] ;;
    execOnContainer c netemCommand true
  else ret nil.

Definition stopNetemContainer (c : Container) (netInterface : string)
    (dryrun : bool) : M error :=
  let prefix := if dryrun then dryRunPrefix else "" in
  log.Infof "%sStop netem for container %s on '%s'"
    [AStr prefix; AStr (ID c); AStr netInterface] ;;
  if negb dryrun then
    let netemCommand := "tc qdisc del dev " +++ netInterface +++
                        " root netem" in
    log.Debugf "netem command '%s'" [AStr netemCommand] ;;
    execOnContainer c netemCommand true
  else ret nil.

Definition startNetemContainerIPFilter (c : Container)
    (netInterface netemCmd targetIP : string) (dryrun : bool) : M error :=
  let prefix := if dryrun then dryRunPrefix else "" in
  log.Infof
    "%sStart netem for container %s on '%s' with command '%s', filter by IP '%s'"
    [AStr prefix; AStr (ID c); AStr netInterface; AStr netemCmd;
     AStr targetIP] ;;
  if negb dryrun then
    let handleCommand := "tc qdisc add dev " +++ netInterface +++
                         " root handle 1: prio" in
    log.Debugf "handleCommand %s" [AStr handleCommand] ;;
    err <- execOnContainer c handleCommand true ;;
    match err with
    | Some e => ret (Some e)
    | None =>
        let netemCommand := "tc qdisc add dev " +++ netInterface +++
                            " parent 1:3 netem " +++
                            strings.ToLower netemCmd in
        log.Debugf "netemCommand %s" [AStr netemCommand] ;;
        err <- execOnContainer c netemCommand true ;;
        match err with
        | Some e => ret (Some e)
        | None =>
            let filterCommand :=
              "tc filter add dev " +++ netInterface +++
              " protocol ip parent 1:0 prio 3 " +++
              "u32 match ip dport " +++ strings.ToLower targetIP +++
              " flowid 1:3" in
            log.Debugf "filterCommand %s" [AStr filterCommand] ;;
            execOnContainer c filterCommand true
        end
    end
  else ret nil.

Definition NetemContainer (c : Container) (netInterface netemCmd : string)
    (targetIP : option net.IP) (duration : Duration)
    (dryrun : bool) : M error :=
  let prefix := if dryrun then dryRunPrefix else "" in
  err <- match targetIP with
         | None =>
             log.Infof "%sRunning netem command '%s' on container %s for %s"
               [AStr prefix; AStr netemCmd; AStr (ID c); ADur duration] ;;
             startNetemContainer c netInterface netemCmd dryrun
         | Some ip =>
             log.Infof
               "%sRunning netem command '%s' on container %s with filter %s for %s"
               [AStr prefix; AStr netemCmd; AStr (ID c);
                AStr (net.String_ ip); ADur duration] ;;
             startNetemContainerIPFilter c netInterface netemCmd
               (net.String_ ip) dryrun
         end ;;
  match err with
  | Some e => ret (Some e)
  | None =>
      (* sleep (current goroutine) for specified duration and then stop
         netem *)
      Sleep duration ;;
      log.Infof "%sStopping netem on container %s"
        [AStr prefix; AStr (ID c)] ;;
      stopNetemContainer c netInterface dryrun
  end.

Definition PauseContainer (c : Container) (duration : Duration)
    (dryrun : bool) : M error :=
  let prefix := if dryrun then dryRunPrefix else "" in
  log.Infof "%sPausing container %s for %s"
    [AStr prefix; AStr (ID c); ADur duration] ;;
  if negb dryrun then
    err <- api_PauseContainer (ID c) ;;
    match err with
    | Some e => ret (Some e)
    | None =>
        log.Debugf "Container %s paused for %s"
          [AStr (ID c); ADur duration] ;;
        (* pause the current goroutine for specified duration *)
        Sleep duration ;;
        err <- api_UnpauseContainer (ID c) ;;
        match err with
        | Some e => ret (Some e)
        | None =>
            log.Debugf "Container upaused %s after %s"
              [AStr (ID c); ADur duration] ;;
            ret nil
        end
    end
  else ret nil.

End Client.

End container.

(** ** The command-line context and the regular expression of package main *)

(** [github.com/urfave/cli]: what the commands read from a [*cli.Context]. *)
Module cli.
#[local] Unset Elimination Schemes.
Inductive Context := {
  Args : list string;
  GlobalString : string -> string;
  String_ : string -> string;
  Int : string -> Z;
  BoolT : string -> bool;
  Parent : option Context
}.
#[local] Set Elimination Schemes.

(** [c.Args().Present()] and [c.Args().First()] *)
Definition Present (args : list string) : bool :=
  match args with
  | [] => false
  | _ :: _ => true
  end.

Definition First (args : list string) : string :=
  match args with
  | [] => ""
  | a :: _ => a
  end.
End cli.

(** [regexp.MustCompile("[a-zA-Z]+[0-9]{0,2}")]: the compiled expression of
    [netemDelay].  [FindString] returns the text of the leftmost match, or
    the empty string when there is none; a match starts at the first letter
    of the input, takes every letter that follows (the repetition is greedy)
    and then up to two digits. *)
Module reInterface.

Definition String_ : string := "[a-zA-Z]+[0-9]{0,2}".

Definition isLetter (a : ascii) : bool :=
  let n := N_of_ascii a in
  ((97 <=? n) && (n <=? 122) || (65 <=? n) && (n <=? 90))%N.

Definition isDigit (a : ascii) : bool :=
  let n := N_of_ascii a in
  ((48 <=? n) && (n <=? 57))%N.

Fixpoint takeWhile (p : ascii -> bool) (s : string) : string :=
  match s with
  | EmptyString => EmptyString
  | String a s' => if p a then String a (takeWhile p s') else EmptyString
  end.

Fixpoint dropWhile (p : ascii -> bool) (s : string) : string :=
  match s with
  | EmptyString => EmptyString
  | String a s' => if p a then dropWhile p s' else s
  end.

(** The greedy [[0-9]{0,2}] at the head of [s]. *)
Definition upToTwoDigits (s : string) : string :=
  match s with
  | String a rest =>
      if isDigit a then
        match rest with
        | String b _ =>
            if isDigit b then String a (String b EmptyString)
            else String a EmptyString
        | EmptyString => String a EmptyString
        end
      else EmptyString
  | EmptyString => EmptyString
  end.

Fixpoint FindString (s : string) : string :=
  match s with
  | EmptyString => EmptyString
  | String a s' =>
      if isLetter a
      then takeWhile isLetter s +++ upToTwoDigits (dropWhile isLetter s)
      else FindString s'
  end.

Fixpoint allOf (p : ascii -> bool) (s : string) : bool :=
  match s with
  | EmptyString => true
  | String a s' => p a && allOf p s'
  end.

(** A whole string matches the expression: one or more letters followed
    by at most two digits, and nothing else. *)
Definition Matches (s : string) : Prop :=
  exists letters digits,
    s = letters +++ digits /\
    letters <> "" /\ allOf isLetter letters = true /\
    allOf isDigit digits = true /\ (String.length digits <= 2)%nat.

End reInterface.

(** ** Package main *)

Module main.

Definition Re2Prefix := "re2:".

(** LinuxSignals valid Linux signal table *)
Definition LinuxSignals : list (string * Z) :=
  [("SIGHUP", 1); ("SIGINT", 2); ("SIGQUIT", 3); ("SIGILL", 4);
   ("SIGTRAP", 5); ("SIGIOT", 6); ("SIGBUS", 7); ("SIGFPE", 8);
   ("SIGKILL", 9); ("SIGUSR1", 10); ("SIGSEGV", 11); ("SIGUSR2", 12);
   ("SIGPIPE", 13); ("SIGALRM", 14); ("SIGTERM", 15); ("SIGSTKFLT", 16);
   ("SIGCHLD", 17); ("SIGCONT", 18); ("SIGSTOP", 19); ("SIGTSTP", 20);
   ("SIGTTIN", 21); ("SIGTTOU", 22); ("SIGURG", 23); ("SIGXCPU", 24);
   ("SIGXFSZ", 25); ("SIGVTALRM", 26); ("SIGPROF", 27); ("SIGWINCH", 28);
   ("SIGIO", 29); ("SIGPWR", 30)].

(** [LinuxSignals[signal]], with the [ok] of the lookup as the option. *)
Fixpoint lookupSignal (signal : string) (table : list (string * Z))
  : option Z :=
  match table with
  | [] => None
  | (name, number) :: rest =>
      if String.eqb name signal then Some number else lookupSignal signal rest
  end.

Definition DefaultSignal := "SIGKILL".

Definition set_gInterval (d : Duration) : M unit :=
  fun w => Some (tt, {| trace := trace w; clock := clock w; gInterval := d |}).

(** [runChaosCommand(cmd, names, pattern, chaosFn)], as the program runs it
    ([gTestRun] is set by tests only).  The call begins with
    [time.NewTicker(gInterval)], which panics for an interval that is not
    positive: the command does not return.  For a positive interval the
    ticker starts, and the loop over its ticks takes over for good: it
    dispatches the command at every tick, logs the errors of the
    dispatches, and hands control back only in test mode, after one tick.
    That loop (a ticker and one goroutine per tick) is not part of the
    embedding.  The embedding of a command ends where the loop begins: the
    event records the start with the four values the loop runs on, and what
    the command returns after it is what the source returns in test
    mode. *)
Definition runChaosCommand (cmd : Command) (names : list string)
    (pattern : string) : M unit :=
  fun w =>
    if gInterval w <=? 0 then None
    else emit (ERunChaosCommand (gInterval w) cmd names pattern) w.

Section Commands.
(** [time.ParseDuration] and [net.ParseIP] of the Go library. *)
Variable ParseDuration : string -> Result Duration.
Variable ParseIP : string -> option net.IP.

(** beforeCommand run before each chaos command *)
Definition beforeCommand (c : cli.Context) : M error :=
  let intervalString := cli.GlobalString c "interval" in
  if String.eqb intervalString "" then
    ret (Some "Undefined interval value.")
  else
    match ParseDuration intervalString with
    | Err e => ret (Some e)
    | Ok interval => set_gInterval interval ;; ret nil
    end.

Definition getNamesOrPattern (c : cli.Context)
  : M (list string * string) :=
  let names := [] in
  let pattern := "" in
  (* get container names or pattern: no Args means ALL containers *)
  if cli.Present (cli.Args c) then
    (* more than one argument, assume that this a list of names *)
    if (1 <? length (cli.Args c))%nat then
      let names := cli.Args c in
      log.Debugf "Names: '%s'" [AStrs names] ;;
      ret (names, pattern)
    else
      let first := cli.First (cli.Args c) in
      if strings.HasPrefix first Re2Prefix then
        let pattern := strings.Trim first Re2Prefix in
        log.Debugf "Pattern: '%s'" [AStr pattern] ;;
        ret (names, pattern)
      else ret (names, pattern)
  else ret (names, pattern).

(** PAUSE command *)
Definition pause (c : cli.Context) : M error :=
  np <- getNamesOrPattern c ;;
  let '(names, pattern) := np in
  let durationString := cli.String_ c "duration" in
  if String.eqb durationString "" then
    let err := "Undefined duration interval" in
    log.Error err ;; ret (Some err)
  else
    match ParseDuration durationString with
    | Err e => log.Error e ;; ret (Some e)
    | Ok duration =>
        let cmd := CommandPause duration in
        runChaosCommand cmd names pattern ;;
        ret nil
    end.

(** NETEM DELAY command *)
Definition netemDelay (c : cli.Context) : M error :=
  np <- getNamesOrPattern c ;;
  let '(names, pattern) := np in
  let durationString :=
    match cli.Parent c with
    | Some parent => cli.String_ parent "duration"
    | None => ""
    end in
  if String.eqb durationString "" then
    let err := "Undefined duration interval" in
    log.Error err ;; ret (Some err)
  else
    match ParseDuration durationString with
    | Err e => log.Error e ;; ret (Some e)
    | Ok duration =>
        (* get network interface and target ip *)
        let checked : Result (string * option net.IP) :=
          match cli.Parent c with
          | Some parent =>
              let netInterface := cli.String_ parent "interface" in
              (* protect from Command Injection, using Regexp *)
              let validInterface := reInterface.FindString netInterface in
              if negb (String.eqb netInterface validInterface) then
                Err (fmt.Sprintf
                       "Bad network interface name. Must match '%s'"
                       [reInterface.String_])
              else
                Ok (netInterface, ParseIP (cli.String_ parent "target"))
          | None => Ok ("eth0", None)
          end in
        match checked with
        | Err e => log.Error e ;; ret (Some e)
        | Ok (netInterface, ip) =>
            let amount := cli.Int c "amount" in
            if amount <=? 0 then
              let err := "Invalid delay amount" in
              log.Error err ;; ret (Some err)
            else
              let variation := cli.Int c "variation" in
              if (variation <? 0) || (amount <? variation) then
                let err := "Invalid delay variation" in
                log.Error err ;; ret (Some err)
              else
                let correlation := cli.Int c "correlation" in
                if (correlation <? 0) || (100 <? correlation) then
                  let err :=
                    "Invalid delay correlation: must be between 0 and 100" in
                  log.Error err ;; ret (Some err)
                else
                  let delayCmd :=
                    CommandNetemDelay netInterface ip duration
                      amount variation correlation in
                  runChaosCommand delayCmd names pattern ;;
                  ret nil
        end
    end.

(** KILL Command *)
Definition kill (c : cli.Context) : M error :=
  np <- getNamesOrPattern c ;;
  let '(names, pattern) := np in
  let signal := cli.String_ c "signal" in
  match lookupSignal signal LinuxSignals with
  | None =>
      let err := "Unexpected signal: " +++ signal in
      log.Error err ;; ret (Some err)
  | Some _ =>
      runChaosCommand (CommandKill signal) names pattern ;;
      ret nil
  end.

(** REMOVE Command *)
Definition remove (c : cli.Context) : M error :=
  np <- getNamesOrPattern c ;;
  let '(names, pattern) := np in
  let force := cli.BoolT c "force" in
  let links := cli.BoolT c "links" in
  let volumes := cli.BoolT c "volumes" in
  let cmd := CommandRemove force links volumes in
  runChaosCommand cmd names pattern ;;
  ret nil.

(** STOP Command *)
Definition stop (c : cli.Context) : M error :=
  np <- getNamesOrPattern c ;;
  let '(names, pattern) := np in
  let cmd := CommandStop (cli.Int c "time") in
  runChaosCommand cmd names pattern ;;
  ret nil.

(** [cli.Command.Run]: the [Before] hook runs first and the [Action]
    only when the hook returned nil. *)
Definition Run (before action : cli.Context -> M error)
    (c : cli.Context) : M error :=
  err <- before c ;;
  match err with
  | Some e => ret (Some e)
  | None => action c
  end.

End Commands.

End main.

(** ** Inputs used by the examples *)

(** A fragment of [time.ParseDuration]: one unsigned decimal number followed
    by one of the units ns, us, ms, s, m, h.  On these texts it returns what
    the library returns; every other text is refused here. *)
Module golib.

Fixpoint leadingInt (s : string) (acc : Z) : Z * string :=
  match s with
  | EmptyString => (acc, EmptyString)
  | String a s' =>
      if reInterface.isDigit a
      then leadingInt s' (acc * 10 + (Z.of_N (N_of_ascii a) - 48))
      else (acc, s)
  end.

Definition unitMap (u : string) : option Duration :=
  if String.eqb u "ns" then Some time.Nanosecond
  else if String.eqb u "us" then Some time.Microsecond
  else if String.eqb u "ms" then Some time.Millisecond
  else if String.eqb u "s" then Some time.Second
  else if String.eqb u "m" then Some time.Minute
  else if String.eqb u "h" then Some time.Hour
  else None.

Definition ParseDuration (s : string) : Result Duration :=
  let '(v, rest) := leadingInt s 0 in
  if (String.length rest =? String.length s)%nat then
    Err ("time: invalid duration " +++ s)
  else
    match unitMap rest with
    | Some unit =>
        if v * unit <=? 2 ^ 63 - 1 then Ok (v * unit)
        else Err ("time: invalid duration " +++ s)
    | None => Err ("time: invalid duration " +++ s)
    end.

End golib.

(** Command lines.  A flag that is not given reads as its default. *)
Module cmdline.

Definition flags (given : list (string * string)) (default : string -> string)
    (name : string) : string :=
  match container.lookupLabel name given with
  | Some v => v
  | None => default name
  end.

Definition ints (given : list (string * Z)) (default : string -> Z)
    (name : string) : Z :=
  match find (fun kv => String.eqb (fst kv) name) given with
  | Some kv => snd kv
  | None => default name
  end.

Definition noString : string -> string := fun _ => "".
Definition noInt : string -> Z := fun _ => 0.

(** The context of the application: the global flags. *)
Definition app (interval : string) : cli.Context :=
  {| cli.Args := [];
     cli.GlobalString := flags [("interval", interval)] noString;
     cli.String_ := flags [("interval", interval)] noString;
     cli.Int := noInt;
     cli.BoolT := fun _ => true;
     cli.Parent := None |}.

(** [pumba --interval <interval> <command> <targets>] for a command without
    flags of its own. *)
Definition targets (interval : string) (args : list string) : cli.Context :=
  {| cli.Args := args;
     cli.GlobalString := flags [("interval", interval)] noString;
     cli.String_ := noString;
     cli.Int := noInt;
     cli.BoolT := fun _ => true;
     cli.Parent := Some (app interval) |}.

(** [pumba --interval <interval> pause --duration <duration> <targets>] *)
Definition pause (interval duration : string) (args : list string)
  : cli.Context :=
  {| cli.Args := args;
     cli.GlobalString := flags [("interval", interval)] noString;
     cli.String_ := flags [("duration", duration)] noString;
     cli.Int := noInt;
     cli.BoolT := fun _ => true;
     cli.Parent := Some (app interval) |}.

(** The defaults of the flags of [netem] and of [netem delay]. *)
Definition netemDefaults (name : string) : string :=
  if String.eqb name "interface" then "eth0" else "".

Definition delayDefaults (name : string) : Z :=
  if String.eqb name "amount" then 100
  else if String.eqb name "variation" then 10
  else if String.eqb name "correlation" then 20
  else 0.

(** [pumba --interval <interval> netem <netem flags> delay <delay flags>
    <targets>] *)
Definition netemDelay (interval : string) (netem : list (string * string))
    (delay : list (string * Z)) (args : list string) : cli.Context :=
  {| cli.Args := args;
     cli.GlobalString := flags [("interval", interval)] noString;
     cli.String_ := noString;
     cli.Int := ints delay delayDefaults;
     cli.BoolT := fun _ => true;
     cli.Parent :=
       Some {| cli.Args := [];
               cli.GlobalString := flags [("interval", interval)] noString;
               cli.String_ := flags netem netemDefaults;
               cli.Int := noInt;
               cli.BoolT := fun _ => true;
               cli.Parent := Some (app interval) |} |}.

(** [pumba --interval <interval> kill --signal <signal> <targets>] *)
Definition kill (interval signal : string) (args : list string)
  : cli.Context :=
  {| cli.Args := args;
     cli.GlobalString := flags [("interval", interval)] noString;
     cli.String_ := flags [("signal", signal)] noString;
     cli.Int := noInt;
     cli.BoolT := fun _ => true;
     cli.Parent := Some (app interval) |}.

End cmdline.

(** The world in which an action starts once the hook has set an interval
    of ten seconds. *)
Definition WorldEvery10s : World :=
  {| trace := []; clock := 0; gInterval := 10 * time.Second |}.

Definition isInspect (e : Event) : bool :=
  match e with
  | ECall (CInspectContainer _) _ => true
  | _ => false
  end.

(** The daemons of the client tests: calls succeed unless said otherwise,
    and take no time. *)
Module mock.
Import container.

Definition noTime : Trace -> N := fun _ => 0%N.

(** The container of the tests. *)
Definition foo : Container :=
  {| containerName := "foo"; containerId := "abc123"; containerLabels := [] |}.

Definition fooUSR1 : Container :=
  {| containerName := "foo"; containerId := "abc123";
     containerLabels := [("com.gaiaadm.pumba.stop-signal", "SIGUSR1")] |}.

Definition engine : engineapi.ContainerAPIClient :=
  {| engineapi.ContainerRemove := fun _ _ _ => nil;
     engineapi.ContainerExecCreate := fun _ _ _ => Ok "testID";
     engineapi.ContainerExecStart := fun _ _ => nil;
     engineapi.elapsed := noTime |}.

Definition daemon (inspect : Trace -> string -> Result ContainerInfo)
  : dockerClient :=
  {| api :=
       {| dockerclient.KillContainer := fun _ _ _ => nil;
          dockerclient.InspectContainer := inspect;
          dockerclient.PauseContainer := fun _ _ => nil;
          dockerclient.UnpauseContainer := fun _ _ => nil;
          dockerclient.elapsed := noTime |};
     apiClient := engine |}.

(** [TestStopContainer_DefaultSuccess]: the first inspect reports a
    container that is not running, every later inspect fails. *)
Definition exitsThenGone : dockerClient :=
  daemon (fun tr _ =>
            if existsb isInspect tr then Err "Not Found"
            else Ok {| Running := false |}).

(** A daemon whose containers exit on the first signal and are kept, as
    Docker keeps a stopped container until it is removed: every inspect
    succeeds and reports a container that is not running. *)
Definition exitsAndStays : dockerClient :=
  daemon (fun _ _ => Ok {| Running := false |}).

(** A daemon whose containers ignore every signal. *)
Definition keepsRunning : dockerClient :=
  daemon (fun _ _ => Ok {| Running := true |}).

End mock.

(** ** Reading traces *)

Definition isLog (e : Event) : bool :=
  match e with
  | ELog _ _ _ => true
  | _ => false
  end.

Definition isCall (e : Event) : bool :=
  match e with
  | ECall _ _ => true
  | _ => false
  end.

Definition isSleep (e : Event) : bool :=
  match e with
  | ESleep _ => true
  | _ => false
  end.

(** What a run did besides logging: its calls to the daemon, its sleeps and
    its scheduler starts, in order. *)
Definition effects (evs : list Event) : list Event :=
  filter (fun e => negb (isLog e)) evs.

(** The inspect calls among the events. *)
Definition inspects (evs : list Event) : nat :=
  length (filter isInspect evs).

(** A logged line whose text starts with the dry-run prefix. *)
Definition isDryLine (durationString : Duration -> string)
    (stringsString : list string -> string) (e : Event) : bool :=
  match e with
  | ELog _ format args =>
      String.prefix container.dryRunPrefix
        (renderLog durationString stringsString format args)
  | _ => false
  end.

(** [runs m w a evs w']: from world [w] the computation [m] returns [a],
    appends the events [evs] and leaves world [w']; time does not go back. *)
Definition runs {A} (m : M A) (w : World) (a : A) (evs : list Event)
    (w' : World) : Prop :=
  m w = Some (a, w') /\ trace w' = trace w ++ evs /\ clock w <= clock w'.

(** [Returns m w Q]: from world [w] the computation [m] returns, and its
    result, the events it appended and the world it left satisfy [Q]. *)
Definition Returns {A} (m : M A) (w : World)
    (Q : A -> list Event -> World -> Prop) : Prop :=
  exists a evs w', runs m w a evs w' /\ Q a evs w'.

(** ** The grammar of the traces of the client *)

(** How a wait for a container to stop ends. *)
Inductive WaitEnd :=
| TimeUp
| Exited
| Failed (e : string).

(** What [waitForStop] returns for each ending. *)
Definition errorOf (ended : WaitEnd) : error :=
  match ended with
  | Failed e => Some e
  | TimeUp | Exited => None
  end.

Definition execConfig (cmd : string) : ExecConfig :=
  {| Privileged := true; Cmd := strings.Split cmd " " |}.

Section Sessions.
Variable id : string.

(** One privileged exec of the command text [cmd] in the container: the
    session is created and, when that succeeded, started. *)
Inductive execSession (cmd : string) : list Event -> error -> Prop :=
| exec_create_fails e :
    execSession cmd
      [ECall (CContainerExecCreate id (execConfig cmd)) (RErr e)] (Some e)
| exec_started execID r :
    execSession cmd
      [ECall (CContainerExecCreate id (execConfig cmd)) (RExecID execID);
       ECall (CContainerExecStart execID) (replyOfError r)] r.

(** The commands of a list run in order, each after the one before it
    succeeded, and the run stops at the first that fails. *)
Inductive execSequence : list string -> list Event -> error -> Prop :=
| seq_done : execSequence [] [] None
| seq_fails cmd cmds evs e :
    execSession cmd evs (Some e) ->
    execSequence (cmd :: cmds) evs (Some e)
| seq_next cmd cmds evs evs' r :
    execSession cmd evs None ->
    execSequence cmds evs' r ->
    execSequence (cmd :: cmds) (evs ++ evs') r.

(** Polling for the container to stop.  A polling begins with an inspect;
    an inspect that reports a running container is followed by a sleep of
    one second, after which the time is up or another round begins.  The
    polling ends with the inspect that failed, with the inspect that
    reported a container that is not running, or after a sleep, when the
    time is up. *)
Inductive polling : list Event -> WaitEnd -> Prop :=
| poll_failed e :
    polling [ECall (CInspectContainer id) (RErr e)] (Failed e)
| poll_exited :
    polling [ECall (CInspectContainer id) (RInfo {| Running := false |})]
      Exited
| poll_time_up :
    polling [ECall (CInspectContainer id) (RInfo {| Running := true |});
             ESleep (1 * time.Second)]
      TimeUp
| poll_again evs ended :
    polling evs ended ->
    polling (ECall (CInspectContainer id) (RInfo {| Running := true |})
             :: ESleep (1 * time.Second) :: evs) ended.

(** The rounds that follow a sleep: none when the time is up, or a
    polling. *)
Definition laterRounds (evs : list Event) (ended : WaitEnd) : Prop :=
  (evs = [] /\ ended = TimeUp) \/ polling evs ended.
End Sessions.

(** The time a call took, as the daemon that answered it tells. *)
Definition took (client : container.dockerClient) (c : Call) : Trace -> N :=
  match c with
  | CKillContainer _ _ | CInspectContainer _
  | CPauseContainer _ | CUnpauseContainer _ =>
      dockerclient.elapsed (container.api client)
  | CContainerRemove _ _ | CContainerExecCreate _ _
  | CContainerExecStart _ =>
      engineapi.elapsed (container.apiClient client)
  end.

(** The time one event takes at the end of the trace [tr]: a sleep its
    duration, a call what the daemon took, a log line nothing. *)
Definition timeOfEvent (client : container.dockerClient) (tr : Trace)
    (e : Event) : Z :=
  match e with
  | ESleep d => Z.max 0 d
  | ECall c _ => Z.of_N (took client c (tr ++ [e]))
  | _ => 0
  end.

(** The time the events [evs] take when they follow the trace [tr]. *)
Fixpoint timeOf (client : container.dockerClient) (tr : Trace)
    (evs : list Event) : Z :=
  match evs with
  | [] => 0
  | e :: evs' => timeOfEvent client tr e + timeOf client (tr ++ [e]) evs'
  end.

(** The events [evs] lead from world [w] to world [w'], and the clock has
    advanced by the time they take. *)
Definition timed (client : container.dockerClient) (w : World)
    (evs : list Event) (w' : World) : Prop :=
  trace w' = trace w ++ evs /\
  clock w' = clock w + timeOf client (trace w) evs.

(** [Timed client m w Q]: the computation [m] returns from world [w], the
    clock advances by the time its events take, and [Q] holds. *)
Definition Timed (client : container.dockerClient) {A} (m : M A) (w : World)
    (Q : A -> list Event -> World -> Prop) : Prop :=
  Returns m w (fun a evs w' => timed client w evs w' /\ Q a evs w').

(** The command texts of netem, as the specification lists them: the setup
    of the unfiltered mode, the three setup commands of the mode filtered by
    target address, and the teardown. *)
Definition netemSetup (netInterface netemCmd : string)
    (targetIP : option net.IP) : list string :=
  match targetIP with
  | None =>
      ["tc qdisc add dev " +++ netInterface +++ " root netem " +++
       strings.ToLower netemCmd]
  | Some ip =>
      ["tc qdisc add dev " +++ netInterface +++ " root handle 1: prio";
       "tc qdisc add dev " +++ netInterface +++ " parent 1:3 netem " +++
       strings.ToLower netemCmd;
       "tc filter add dev " +++ netInterface +++
       " protocol ip parent 1:0 prio 3 u32 match ip dport " +++
       strings.ToLower (net.String_ ip) +++ " flowid 1:3"]
  end.

Definition netemTeardown (netInterface : string) : string :=
  "tc qdisc del dev " +++ netInterface +++ " root netem".

(** The signal [StopContainer] sends first. *)
Definition stopSignalOf (c : container.Container) : string :=
  if String.eqb (container.StopSignal c) "" then container.defaultStopSignal
  else container.StopSignal c.

(** The inspect calls that fit in a wait of [d] nanoseconds: one per second
    started. *)
Definition pollBudget (d : Duration) : nat :=
  Z.to_nat ((d + time.Second - 1) / time.Second).

(** ** Listing the running containers

    [ListContainers] of package container only reads from the daemon.  It is
    embedded over a trace of its own: the queries it makes, each with the
    answer of the daemon, and its log lines. *)
Module listing.

(** [dockerclient.Container], an entry of the list of the daemon. *)
Record Listed := {
  listedId : string;
  listedNames : list string
}.

(** [dockerclient.ContainerInfo], the fields the client reads. *)
Record Details := {
  Id : string;
  Name : string;
  Image : string;
  Labels : list (string * string);
  State : ContainerInfo
}.

(** [dockerclient.ImageInfo] *)
Record ImageInfo := {
  imageId : string
}.

(** The struct [Container] that [ListContainers] fills; the operations of
    the client read it through [Name], [ID] and [StopSignal]. *)
Record Container := {
  containerInfo : Details;
  imageInfo : ImageInfo
}.

(** A Filter is a prototype for a function that can be used to filter the
    results from a call to the ListContainers() method on the Client. *)
Definition Filter := Container -> bool.

Inductive Query :=
| QListContainers (all size : bool) (filters : string)
| QInspectContainer (id : string)
| QInspectImage (image : string).

Inductive Answer :=
| AErr (e : string)
| AListed (l : list Listed)
| ADetails (ci : Details)
| AImage (ii : ImageInfo).

Inductive Event :=
| Logged (level : Level) (format : string) (args : list Arg)
| Asked (q : Query) (a : Answer).

(** The three methods of [dockerclient.Client] that list and inspect; each
    answers from the history. *)
Record Client := {
  ListContainers_ : list Event -> bool -> bool -> string -> Result (list Listed);
  InspectContainer : list Event -> string -> Result Details;
  InspectImage : list Event -> string -> Result ImageInfo
}.

Definition L (A : Type) : Type := list Event -> A * list Event.

Definition unit_ {A} (a : A) : L A := fun tr => (a, tr).

Definition then_ {A B} (m : L A) (k : A -> L B) : L B :=
  fun tr => let '(a, tr') := m tr in k a tr'.

Definition Debug (format : string) (args : list Arg) : L unit :=
  fun tr => (tt, tr ++ [Logged DebugLevel format args]).

Definition ask {R} (q : Query) (answer : list Event -> R)
    (shown : R -> Answer) : L R :=
  fun tr => let r := answer tr in (r, tr ++ [Asked q (shown r)]).

Definition shownListed (r : Result (list Listed)) : Answer :=
  match r with
  | Ok l => AListed l
  | Err e => AErr e
  end.

Definition shownDetails (r : Result Details) : Answer :=
  match r with
  | Ok ci => ADetails ci
  | Err e => AErr e
  end.

Definition shownImage (r : Result ImageInfo) : Answer :=
  match r with
  | Ok ii => AImage ii
  | Err e => AErr e
  end.

Section Client.
Variable api : Client.

(** The body of the loop over the running containers, with the slice [cs]
    built so far. *)
Fixpoint rangeContainers (fn : Filter) (runningContainers : list Listed)
    (cs : list Container) : L (Result (list Container)) :=
  match runningContainers with
  | [] => unit_ (Ok cs)
  | runningContainer :: rest =>
      then_ (ask (QInspectContainer (listedId runningContainer))
               (fun tr => InspectContainer api tr (listedId runningContainer))
               shownDetails)
        (fun r =>
           match r with
           | Err e => unit_ (Err e)
           | Ok containerInfo =>
               then_ (Debug "Running container: %s - (%s)"
                        [AStr (Name containerInfo); AStr (Id containerInfo)])
                 (fun _ =>
                    then_ (ask (QInspectImage (Image containerInfo))
                             (fun tr => InspectImage api tr
                                          (Image containerInfo))
                             shownImage)
                      (fun r' =>
                         match r' with
                         | Err e => unit_ (Err e)
                         | Ok imageInfo =>
                             let c := {| containerInfo := containerInfo;
                                         imageInfo := imageInfo |} in
                             rangeContainers fn rest
                               (if fn c then cs ++ [c] else cs)
                         end))
           end)
  end.

Definition ListContainers (fn : Filter) : L (Result (list Container)) :=
  let cs := [] in
  then_ (Debug "Retrieving running containers" [])
    (fun _ =>
       then_ (ask (QListContainers false false "")
                (fun tr => ListContainers_ api tr false false "")
                shownListed)
         (fun r =>
            match r with
            | Err e => unit_ (Err e)
            | Ok runningContainers =>
                rangeContainers fn runningContainers cs
            end)).

End Client.

(** The filters of the tests. *)
Definition allContainers : Filter := fun _ => true.
Definition noContainers : Filter := fun _ => false.

(** The queries among the events, with their answers. *)
Definition asked (evs : list Event) : list Event :=
  filter (fun e => match e with Asked _ _ => true | Logged _ _ _ => false end)
    evs.

(** The walk over the list of the daemon: each entry is inspected, then the
    image its inspection names; the walk stops at the first query that
    fails, and otherwise collects the containers in the order of the list. *)
Inductive walk : list Listed -> list Event -> Result (list Container) -> Prop :=
| walk_done : walk [] [] (Ok [])
| walk_inspect_fails rc rest e :
    walk (rc :: rest) [Asked (QInspectContainer (listedId rc)) (AErr e)]
      (Err e)
| walk_image_fails rc rest ci e :
    walk (rc :: rest)
      [Asked (QInspectContainer (listedId rc)) (ADetails ci);
       Asked (QInspectImage (Image ci)) (AErr e)]
      (Err e)
| walk_next rc rest ci ii evs r :
    walk rest evs r ->
    walk (rc :: rest)
      (Asked (QInspectContainer (listedId rc)) (ADetails ci)
       :: Asked (QInspectImage (Image ci)) (AImage ii) :: evs)
      (match r with
       | Ok cs => Ok ({| containerInfo := ci; imageInfo := ii |} :: cs)
       | Err e => Err e
       end).

(** The result of a listing, filtered afterwards. *)
Definition filtered (fn : Filter) (r : Result (list Container))
  : Result (list Container) :=
  match r with
  | Ok cs => Ok (filter fn cs)
  | Err e => Err e
  end.

(** [TestListContainers_Success]: one running container [foo] of image
    [abc123]. *)
Definition oneContainer : Client :=
  {| ListContainers_ := fun _ _ _ _ =>
       Ok [{| listedId := "foo"; listedNames := ["bar"] |}];
     InspectContainer := fun _ _ =>
       Ok {| Id := "foo"; Name := "bar"; Image := "abc123"; Labels := [];
             State := {| Running := true |} |};
     InspectImage := fun _ _ => Ok {| imageId := "abc123" |} |}.

End listing.

(** ** Reading the traces of the commands and of the operations *)

Definition isErrorLog (e : Event) : bool :=
  match e with
  | ELog ErrorLevel _ _ => true
  | _ => false
  end.

(** A command that returns an error, logs it once at the error level and
    starts no scheduler. *)
Definition rejected (r : error) (evs : list Event) : Prop :=
  exists e, r = Some e /\ effects evs = [] /\
            filter isErrorLog evs = [ELog ErrorLevel "%s" [AStr e]].

(** A command that reaches the start of the scheduler, on the interval of
    the world it began in: the start is the last event of the command and
    its only effect, and no error is logged before it. *)
Definition scheduled (w : World) (evs : list Event) : Prop :=
  exists before cmd names pattern,
    evs = before ++ [ERunChaosCommand (gInterval w) cmd names pattern] /\
    effects before = [] /\
    filter isErrorLog before = [].

(** The container a call names; the start of an exec session names the
    session, not a container. *)
Definition callTarget (e : Event) : option string :=
  match e with
  | ECall (CKillContainer id _) _ => Some id
  | ECall (CInspectContainer id) _ => Some id
  | ECall (CPauseContainer id) _ => Some id
  | ECall (CUnpauseContainer id) _ => Some id
  | ECall (CContainerRemove id _) _ => Some id
  | ECall (CContainerExecCreate id _) _ => Some id
  | _ => None
  end.

(** An event that names no container other than [id]. *)
Definition addresses (id : string) (e : Event) : bool :=
  match callTarget e with
  | Some target => String.eqb target id
  | None => true
  end.

(** The first byte, and the last byte, of a text is in the cutset. *)
Definition headInList (cutset : string) (l : list ascii) : bool :=
  match l with
  | a :: _ => strings.inCutset a cutset
  | [] => false
  end.

Definition headIn (cutset s : string) : bool :=
  match s with
  | String a _ => strings.inCutset a cutset
  | EmptyString => false
  end.

Definition lastIn (cutset s : string) : bool :=
  match rev (list_ascii_of_string s) with
  | a :: _ => strings.inCutset a cutset
  | [] => false
  end.

Definition notSpace (a : ascii) : bool := negb (Ascii.eqb a " ").

(** What a dry run may leave in the trace: no call to the daemon, at least
    one logged line, and every logged line starts with the dry-run prefix. *)
Definition dryOnly (durationString : Duration -> string)
    (stringsString : list string -> string) (evs : list Event) : Prop :=
  Forall (fun e => isCall e = false) evs /\
  Exists (fun e => isDryLine durationString stringsString e = true) evs /\
  Forall (fun e => isLog e = true ->
                   isDryLine durationString stringsString e = true) evs.

(** * Properties *)

(** ** Runs *)

Lemma runs_ret {A} (a : A) w : runs (ret a) w a [] w.
Proof.
  unfold runs, ret. rewrite app_nil_r. repeat split. lia.
Qed.

Lemma runs_bind {A B} (m : M A) (k : A -> M B) w a e1 w1 b e2 w2 :
  runs m w a e1 w1 -> runs (k a) w1 b e2 w2 ->
  runs (bind m k) w b (e1 ++ e2) w2.
Proof.
  intros (Hm & Ht & Hc) (Hk & Ht' & Hc'). unfold runs, bind.
  rewrite Hm. repeat split; trivial.
  - rewrite Ht', Ht. now rewrite app_assoc.
  - lia.
Qed.

Lemma Returns_ret {A} (a : A) w Q : Q a [] w -> Returns (ret a) w Q.
Proof. intros H. exists a, [], w. split; [apply runs_ret | exact H]. Qed.

Lemma Returns_bind {A B} (m : M A) (k : A -> M B) w Q :
  Returns m w (fun a e1 w1 =>
    Returns (k a) w1 (fun b e2 w2 => Q b (e1 ++ e2) w2)) ->
  Returns (bind m k) w Q.
Proof.
  intros (a & e1 & w1 & Hm & b & e2 & w2 & Hk & HQ).
  exists b, (e1 ++ e2), w2. split; [eapply runs_bind; eassumption | exact HQ].
Qed.

Lemma Returns_emit e w Q :
  Q tt [e] {| trace := trace w ++ [e]; clock := clock w;
              gInterval := gInterval w |} ->
  Returns (emit e) w Q.
Proof.
  intros H. eexists _, _, _. split; [|exact H].
  unfold runs, emit. cbn. repeat split. lia.
Qed.

Lemma Returns_Sleep d w Q :
  Q tt [ESleep d] {| trace := trace w ++ [ESleep d];
                     clock := clock w + Z.max 0 d;
                     gInterval := gInterval w |} ->
  Returns (Sleep d) w Q.
Proof.
  intros H. eexists _, _, _. split; [|exact H].
  unfold runs, Sleep. cbn. repeat split. lia.
Qed.

Lemma Returns_now w Q : Q (clock w) [] w -> Returns now w Q.
Proof.
  intros H. exists (clock w), [], w. split; [|exact H].
  unfold runs, now. rewrite app_nil_r. repeat split. lia.
Qed.

Lemma Returns_perform {R} c (answer : Trace -> R) reply took w Q :
  (let r := answer (trace w) in
   let tr := trace w ++ [ECall c (reply r)] in
   Q r [ECall c (reply r)]
     {| trace := tr; clock := clock w + Z.of_N (took tr);
        gInterval := gInterval w |}) ->
  Returns (perform c answer reply took) w Q.
Proof.
  intros H. eexists _, _, _. split; [|exact H].
  unfold runs, perform. cbn. repeat split. lia.
Qed.

Lemma Returns_set_gInterval d w Q :
  Q tt [] {| trace := trace w; clock := clock w; gInterval := d |} ->
  Returns (main.set_gInterval d) w Q.
Proof.
  intros H. eexists _, _, _. split; [|exact H].
  unfold runs, main.set_gInterval. cbn. rewrite app_nil_r. repeat split. lia.
Qed.

Lemma Returns_runChaosCommand cmd names pattern w Q :
  0 < gInterval w ->
  Q tt [ERunChaosCommand (gInterval w) cmd names pattern]
    {| trace := trace w ++ [ERunChaosCommand (gInterval w) cmd names pattern];
       clock := clock w; gInterval := gInterval w |} ->
  Returns (main.runChaosCommand cmd names pattern) w Q.
Proof.
  intros Hpos H. eexists _, _, _. split; [|exact H].
  unfold runs, main.runChaosCommand, emit.
  destruct (Z.leb_spec (gInterval w) 0); [lia|].
  cbn. repeat split. lia.
Qed.

(** For an interval that is not positive the ticker panics. *)
Lemma runChaosCommand_panics cmd names pattern w :
  gInterval w <= 0 -> main.runChaosCommand cmd names pattern w = None.
Proof.
  intros H. unfold main.runChaosCommand.
  destruct (Z.leb_spec (gInterval w) 0); [reflexivity|lia].
Qed.

Lemma Returns_weaken {A} (m : M A) w (Q Q' : A -> list Event -> World -> Prop) :
  Returns m w Q' -> (forall a evs w', Q' a evs w' -> Q a evs w') ->
  Returns m w Q.
Proof.
  intros (a & evs & w' & Hr & HQ) Himp. exists a, evs, w'. auto.
Qed.

(** Threads the primitive steps of a straight piece of code. *)
Ltac step :=
  lazymatch goal with
  | |- Returns (ret _) _ _ => apply Returns_ret
  | |- Returns (emit _) _ _ => apply Returns_emit
  | |- Returns (log.Infof _ _) _ _ => apply Returns_emit
  | |- Returns (log.Debugf _ _) _ _ => apply Returns_emit
  | |- Returns (log.Error _) _ _ => apply Returns_emit
  | |- Returns (Sleep _) _ _ => apply Returns_Sleep
  | |- Returns now _ _ => apply Returns_now
  | |- Returns (perform _ _ _ _) _ _ => apply Returns_perform
  | |- Returns (main.set_gInterval _) _ _ => apply Returns_set_gInterval
  | |- Returns (main.runChaosCommand _ _ _) _ _ =>
      apply Returns_runChaosCommand; [cbn [gInterval]; lia|]
  | |- Returns (bind _ _) _ _ => apply Returns_bind
  end; cbv beta zeta iota delta [nil]; cbn [trace clock gInterval].

Ltac steps := repeat step.

(** ** Traces *)

Lemma effects_app e1 e2 : effects (e1 ++ e2) = effects e1 ++ effects e2.
Proof. apply filter_app. Qed.

Lemma effects_nil : effects [] = [].
Proof. reflexivity. Qed.

Lemma effects_log l f a evs : effects (ELog l f a :: evs) = effects evs.
Proof. reflexivity. Qed.

Lemma effects_call c r evs :
  effects (ECall c r :: evs) = ECall c r :: effects evs.
Proof. reflexivity. Qed.

Lemma effects_sleep d evs : effects (ESleep d :: evs) = ESleep d :: effects evs.
Proof. reflexivity. Qed.

Lemma effects_run i cmd n p evs :
  effects (ERunChaosCommand i cmd n p :: evs) =
  ERunChaosCommand i cmd n p :: effects evs.
Proof. reflexivity. Qed.

Ltac effs :=
  repeat (rewrite effects_app || rewrite effects_log || rewrite effects_call
          || rewrite effects_sleep || rewrite effects_run
          || rewrite effects_nil || rewrite app_nil_r
          || rewrite app_nil_l).

Lemma inspects_nil : inspects [] = 0%nat.
Proof. reflexivity. Qed.

Lemma inspects_inspect id r evs :
  inspects (ECall (CInspectContainer id) r :: evs) = S (inspects evs).
Proof. reflexivity. Qed.

Lemma inspects_sleep d evs : inspects (ESleep d :: evs) = inspects evs.
Proof. reflexivity. Qed.

Lemma inspects_effects evs : inspects (effects evs) = inspects evs.
Proof.
  unfold inspects, effects. induction evs as [|e evs IH]; [reflexivity|].
  destruct e as [l f a|d|c r|i cmd n p]; cbn [filter isLog negb isInspect];
    try exact IH.
  destruct c; cbn [length]; now rewrite ?IH.
Qed.

Lemma pollBudget_step d d' :
  1 <= d -> d' <= d - time.Second ->
  (S (pollBudget d') <= pollBudget d)%nat.
Proof.
  unfold pollBudget, time.Second. intros Hd Hd'.
  assert (H1 : (d' + 1000000000 - 1) / 1000000000 <= (d - 1) / 1000000000)
    by (apply Z.div_le_mono; lia).
  assert (H2 : 0 <= (d - 1) / 1000000000) by (apply Z.div_pos; lia).
  replace (d + 1000000000 - 1) with ((d - 1) + 1 * 1000000000) by lia.
  rewrite Z.div_add by lia. lia.
Qed.

Lemma pollBudget_pos d : 1 <= d -> (1 <= pollBudget d)%nat.
Proof.
  intros Hd.
  pose proof (pollBudget_step d (d - time.Second) Hd (Z.le_refl _)). lia.
Qed.

(** A wait of [n] seconds that fits in 64 bits allows [n] inspect calls. *)
Lemma pollBudget_seconds n :
  0 <= n <= 9223372036 ->
  pollBudget (wrap64 (n * time.Second)) = Z.to_nat n.
Proof.
  intros Hn. unfold pollBudget, wrap64, time.Second.
  rewrite Z.mod_small by lia.
  replace (n * 1000000000 + 2 ^ 63 - 2 ^ 63 + 1000000000 - 1)
    with (999999999 + n * 1000000000) by lia.
  rewrite Z.div_add by lia. reflexivity.
Qed.

(** ** The client *)

Section ClientFacts.
Import container.
Variable client : dockerClient.

Ltac api :=
  unfold api_KillContainer, api_InspectContainer, api_PauseContainer,
    api_UnpauseContainer, apiClient_ContainerRemove,
    apiClient_ContainerExecCreate, apiClient_ContainerExecStart.

Ltac dry_trace :=
  cbn [app]; split; [reflexivity|];
  repeat split;
  [ repeat constructor
  | apply Exists_cons_hd; reflexivity
  | repeat constructor; intros H; try reflexivity; discriminate H ].

(** C1. With the dry flag set, each of kill, stop, remove, pause and netem
    returns nil for every container and every parameter; it logs at least
    one line, every line it logs starts with "DRY: " however the backend
    prints the arguments, and it makes no call to the daemon at all. *)
Theorem dry_run_makes_no_runtime_call
    c signal wait force links volumes netInterface netemCmd targetIP duration
    w durationString stringsString :
  let dry m :=
    Returns m w (fun r evs _ =>
                   r = nil /\ dryOnly durationString stringsString evs) in
  dry (KillContainer client c signal true) /\
  dry (StopContainer client c wait true) /\
  dry (RemoveContainer client c force links volumes true) /\
  dry (PauseContainer client c duration true) /\
  dry (NetemContainer client c netInterface netemCmd targetIP duration true).
Proof.
  cbv zeta. repeat split.
  - unfold KillContainer. cbn [negb]. steps. dry_trace.
  - unfold StopContainer. cbn [negb]. steps. dry_trace.
  - unfold RemoveContainer. cbn [negb]. steps. dry_trace.
  - unfold PauseContainer. cbn [negb]. steps. dry_trace.
  - unfold NetemContainer, startNetemContainer, startNetemContainerIPFilter,
      stopNetemContainer.
    cbn [negb]. destruct targetIP as [ip|]; steps; dry_trace.
Qed.

(** C10. In a dry run the two transient disruptions differ in time: pause
    returns at once, with no pause call, no sleep and no unpause call,
    while netem makes no call to the daemon but still sleeps for the whole
    duration before it returns. *)
Theorem dry_pause_returns_at_once_dry_netem_sleeps
    c netInterface netemCmd targetIP duration w :
  Returns (PauseContainer client c duration true) w
    (fun r evs w' =>
       r = nil /\ filter isCall evs = [] /\ filter isSleep evs = [] /\
       clock w' = clock w) /\
  Returns (NetemContainer client c netInterface netemCmd targetIP duration
             true) w
    (fun r evs w' =>
       r = nil /\ filter isCall evs = [] /\
       filter isSleep evs = [ESleep duration] /\
       clock w' = clock w + Z.max 0 duration).
Proof.
  split.
  - unfold PauseContainer. cbn [negb]. steps. repeat split.
  - unfold NetemContainer, startNetemContainer, startNetemContainerIPFilter,
      stopNetemContainer.
    cbn [negb]. destruct targetIP as [ip|]; steps; repeat split.
Qed.

(** The single call of a remove that is not dry: the links argument fills
    the RemoveVolumes field of the request and the volumes argument its
    RemoveLinks field. *)
Lemma RemoveContainer_request c force links volumes w :
  Returns (RemoveContainer client c force links volumes false) w
    (fun r evs _ =>
       effects evs =
         [ECall (CContainerRemove (ID c)
                   {| RemoveVolumes := links; RemoveLinks := volumes;
                      Force := force |}) (replyOfError r)]).
Proof.
  unfold RemoveContainer. cbn [negb]. api. steps. reflexivity.
Qed.

(** *** Netem *)

Lemma execOnContainer_session c cmd w :
  Returns (execOnContainer client c cmd true) w
    (fun r evs _ => execSession (ID c) cmd (effects evs) r).
Proof.
  unfold execOnContainer. api. steps.
  destruct (engineapi.ContainerExecCreate _ _ _ _) as [execID|e]; steps.
  - cbn. apply exec_started.
  - cbn. apply exec_create_fails.
Qed.

Lemma startNetemContainer_sequence c netInterface netemCmd w :
  Returns (startNetemContainer client c netInterface netemCmd false) w
    (fun r evs _ =>
       execSequence (ID c) (netemSetup netInterface netemCmd None)
         (effects evs) r).
Proof.
  unfold startNetemContainer. cbn [negb]. steps.
  eapply Returns_weaken; [apply execOnContainer_session|].
  intros r evs w' H. effs.
  destruct r as [e|].
  - apply seq_fails. exact H.
  - rewrite <- (app_nil_r (effects evs)).
    eapply seq_next; [exact H|apply seq_done].
Qed.

Lemma startNetemContainerIPFilter_sequence c netInterface netemCmd ip w :
  Returns (startNetemContainerIPFilter client c netInterface netemCmd
             (net.String_ ip) false) w
    (fun r evs _ =>
       execSequence (ID c) (netemSetup netInterface netemCmd (Some ip))
         (effects evs) r).
Proof.
  unfold startNetemContainerIPFilter, netemSetup. cbn [negb]. steps.
  eapply Returns_weaken; [apply execOnContainer_session|].
  intros r1 evs1 w1 H1. destruct r1 as [e|]; steps.
  { effs. now apply seq_fails. }
  eapply Returns_weaken; [apply execOnContainer_session|].
  intros r2 evs2 w2 H2. destruct r2 as [e|]; steps.
  { effs. apply seq_next; trivial. now apply seq_fails. }
  eapply Returns_weaken; [apply execOnContainer_session|].
  intros r3 evs3 w3 H3. effs.
  do 2 (apply seq_next; trivial).
  destruct r3 as [e|].
  - now apply seq_fails.
  - rewrite <- (app_nil_r (effects evs3)). apply seq_next; trivial.
    apply seq_done.
Qed.

Lemma stopNetemContainer_session c netInterface w :
  Returns (stopNetemContainer client c netInterface false) w
    (fun r evs _ =>
       execSession (ID c) (netemTeardown netInterface) (effects evs) r).
Proof.
  unfold stopNetemContainer. cbn [negb]. steps.
  eapply Returns_weaken; [apply execOnContainer_session|].
  intros r evs w' H. effs. exact H.
Qed.

(** C8. A netem that is not dry returns, and besides logging it does one of
    two things.  Either a setup exec failed: then it ran the setup commands
    in order up to the one that failed (one command in unfiltered mode,
    the three commands prio qdisc, netem child and u32 filter in filtered
    mode, each a privileged exec whose argv is the command text split at
    spaces, each started before the next is created), it returns that error,
    and there is no sleep and no teardown.  Or every setup exec succeeded:
    then it slept for the duration and after that issued the teardown exec
    [tc qdisc del dev <iface> root netem], whose outcome it returns.  The
    target address is lowercased like the netem specification; the text Go
    prints for an address has no capital letter. *)
Theorem netem_setup_sleep_teardown
    c netInterface netemCmd targetIP duration w :
  Returns (NetemContainer client c netInterface netemCmd targetIP duration
             false) w
    (fun r evs _ =>
       (exists e,
           execSequence (ID c) (netemSetup netInterface netemCmd targetIP)
             (effects evs) (Some e) /\
           r = Some e)
       \/
       (exists setup teardown,
           execSequence (ID c) (netemSetup netInterface netemCmd targetIP)
             setup None /\
           execSession (ID c) (netemTeardown netInterface) teardown r /\
           effects evs = setup ++ ESleep duration :: teardown)).
Proof.
  unfold NetemContainer. apply Returns_bind.
  apply Returns_weaken with
    (Q' := fun r evs _ =>
             execSequence (ID c) (netemSetup netInterface netemCmd targetIP)
               (effects evs) r).
  { destruct targetIP as [ip|]; steps.
    - eapply Returns_weaken;
        [apply startNetemContainerIPFilter_sequence|].
      intros r evs w' H. effs. exact H.
    - eapply Returns_weaken; [apply startNetemContainer_sequence|].
      intros r evs w' H. effs. exact H. }
  intros r1 evs1 w1 H1. destruct r1 as [e|]; steps.
  { left. exists e. effs. auto. }
  eapply Returns_weaken; [apply stopNetemContainer_session|].
  intros r evs w' H. right. exists (effects evs1), (effects evs).
  effs. auto.
Qed.

(** *** Time *)

Lemma timeOf_app tr e1 e2 :
  timeOf client tr (e1 ++ e2) =
  timeOf client tr e1 + timeOf client (tr ++ e1) e2.
Proof.
  revert tr. induction e1 as [|e e1 IH]; intros tr; cbn [app timeOf].
  - now rewrite app_nil_r.
  - rewrite IH, <- app_assoc. cbn [app]. lia.
Qed.

Lemma timed_nil w : timed client w [] w.
Proof. unfold timed. cbn. rewrite app_nil_r. split; [reflexivity|lia]. Qed.

Lemma timed_app w e1 w1 e2 w2 :
  timed client w e1 w1 -> timed client w1 e2 w2 ->
  timed client w (e1 ++ e2) w2.
Proof.
  intros [Ht1 Hc1] [Ht2 Hc2]. split.
  - now rewrite Ht2, Ht1, app_assoc.
  - rewrite Hc2, Hc1, Ht1, timeOf_app. lia.
Qed.

Lemma Timed_ret {A} (a : A) w Q : Q a [] w -> Timed client (ret a) w Q.
Proof. intros H. apply Returns_ret. split; [apply timed_nil|exact H]. Qed.

Lemma Timed_bind {A B} (m : M A) (k : A -> M B) w Q :
  Timed client m w (fun a e1 w1 =>
    Timed client (k a) w1 (fun b e2 w2 => Q b (e1 ++ e2) w2)) ->
  Timed client (bind m k) w Q.
Proof.
  intros H. apply Returns_bind. eapply Returns_weaken; [exact H|].
  intros a e1 w1 [Ht1 Hk]. eapply Returns_weaken; [exact Hk|].
  intros b e2 w2 [Ht2 HQ]. split; [eapply timed_app; eassumption|exact HQ].
Qed.

Lemma Timed_log level format args w Q :
  Q tt [ELog level format args]
    {| trace := trace w ++ [ELog level format args]; clock := clock w;
       gInterval := gInterval w |} ->
  Timed client (emit (ELog level format args)) w Q.
Proof.
  intros H. apply Returns_emit. split; [|exact H].
  split; cbn; [reflexivity|lia].
Qed.

Lemma Timed_Sleep d w Q :
  Q tt [ESleep d] {| trace := trace w ++ [ESleep d];
                     clock := clock w + Z.max 0 d;
                     gInterval := gInterval w |} ->
  Timed client (Sleep d) w Q.
Proof.
  intros H. apply Returns_Sleep. split; [|exact H].
  split; cbn; [reflexivity|lia].
Qed.

Lemma Timed_now w Q : Q (clock w) [] w -> Timed client now w Q.
Proof. intros H. apply Returns_now. split; [apply timed_nil|exact H]. Qed.

Lemma Timed_perform {R} c (answer : Trace -> R) reply w Q :
  (let r := answer (trace w) in
   let tr := trace w ++ [ECall c (reply r)] in
   Q r [ECall c (reply r)]
     {| trace := tr; clock := clock w + Z.of_N (took client c tr);
        gInterval := gInterval w |}) ->
  Timed client (perform c answer reply (took client c)) w Q.
Proof.
  intros H. apply Returns_perform. split; [|exact H].
  split; cbn; [reflexivity|lia].
Qed.

Lemma Timed_weaken {A} (m : M A) w
    (Q Q' : A -> list Event -> World -> Prop) :
  Timed client m w Q' ->
  (forall a evs w', timed client w evs w' -> Q' a evs w' -> Q a evs w') ->
  Timed client m w Q.
Proof.
  intros H Himp. eapply Returns_weaken; [exact H|].
  intros a evs w' [Ht HQ]. auto.
Qed.

Ltac tstep :=
  lazymatch goal with
  | |- Timed _ (ret _) _ _ => apply Timed_ret
  | |- Timed _ (log.Infof _ _) _ _ => apply Timed_log
  | |- Timed _ (log.Debugf _ _) _ _ => apply Timed_log
  | |- Timed _ (Sleep _) _ _ => apply Timed_Sleep
  | |- Timed _ now _ _ => apply Timed_now
  | |- Timed _ (api_KillContainer _ _ _) _ _ =>
      apply (Timed_perform (CKillContainer _ _))
  | |- Timed _ (api_InspectContainer _ _) _ _ =>
      apply (Timed_perform (CInspectContainer _))
  | |- Timed _ (bind _ _) _ _ => apply Timed_bind
  end; cbv beta zeta iota delta [nil]; cbn [trace clock gInterval].

Ltac tsteps := repeat tstep.

(** *** Stop *)

Lemma waitLoop_S fuel first c deadline :
  waitLoop client (S fuel) first c deadline =
  (t <- now ;;
   if negb first && (deadline <=? t) then ret nil
   else
     r <- api_InspectContainer client (ID c) ;;
     match r with
     | Err e => ret (Some e)
     | Ok ci =>
         if negb (Running ci) then ret nil
         else Sleep (1 * time.Second) ;; waitLoop client fuel false c deadline
     end).
Proof. reflexivity. Qed.

Lemma pollBudget_zero d : d <= 0 -> pollBudget d = 0%nat.
Proof.
  intros Hd. unfold pollBudget, time.Second.
  assert ((d + 1000000000 - 1) / 1000000000 <= (1000000000 - 1) / 1000000000)
    by (apply Z.div_le_mono; lia).
  change ((1000000000 - 1) / 1000000000) with 0 in H. lia.
Qed.

(** The rounds after the first.  With a second of fuel for every second
    left, the loop returns; its inspect calls fit in the time left, and it
    ends on the timer only when the clock has reached the deadline. *)
Lemma waitLoop_later c deadline f : forall w,
  deadline - clock w <= Z.of_nat f * time.Second ->
  Timed client (waitLoop client (S f) false c deadline) w
    (fun r evs w' =>
       exists ended,
         r = errorOf ended /\
         laterRounds (ID c) evs ended /\
         (inspects evs <= pollBudget (deadline - clock w)%Z)%nat /\
         match ended with
         | TimeUp => deadline <= clock w'
         | _ => True
         end).
Proof.
  induction f as [|f IH]; intros w Hfuel; rewrite waitLoop_S; tsteps;
    cbn [negb andb].
  - destruct (Z.leb_spec deadline (clock w)) as [Hle|Hlt];
      [|unfold time.Second in *; lia].
    tsteps. cbn [app]. exists TimeUp.
    repeat split; [now left|cbn; lia|exact Hle].
  - destruct (Z.leb_spec deadline (clock w)) as [Hle|Hlt].
    { tsteps. cbn [app]. exists TimeUp.
      repeat split; [now left|cbn; lia|exact Hle]. }
    tsteps.
    destruct (dockerclient.InspectContainer _ _ _) as [[running]|e].
    2:{ tsteps. cbn [app]. exists (Failed e).
        repeat split; [right; constructor|].
        rewrite inspects_inspect, inspects_nil. apply pollBudget_pos; lia. }
    cbn [Running replyOfInfo]. destruct running; cbn [negb].
    2:{ tsteps. cbn [app]. exists Exited. repeat split; [right; constructor|].
        rewrite inspects_inspect, inspects_nil. apply pollBudget_pos; lia. }
    tsteps. eapply Timed_weaken.
    { apply IH. cbn [clock]. unfold time.Second in *. lia. }
    cbn [clock]. intros r evs w' _ (ended & -> & Hl & Hn & Ht).
    exists ended. split; [reflexivity|]. cbn [app]. split; [|split].
    + right. destruct Hl as [[-> ->]|Hp]; [constructor|now constructor].
    + rewrite inspects_inspect, inspects_sleep.
      etransitivity; [apply le_n_S, Hn|].
      apply pollBudget_step; unfold time.Second in *; lia.
    + exact Ht.
Qed.

(** The first round always inspects. *)
Lemma waitLoop_first c deadline f w :
  (1 <= f)%nat ->
  deadline - clock w <= Z.of_nat f * time.Second ->
  Timed client (waitLoop client (S f) true c deadline) w
    (fun r evs w' =>
       exists ended,
         r = errorOf ended /\
         polling (ID c) evs ended /\
         (inspects evs <= Nat.max 1 (pollBudget (deadline - clock w)%Z))%nat /\
         match ended with
         | TimeUp => deadline <= clock w'
         | _ => True
         end).
Proof.
  intros Hf Hfuel. destruct f as [|f]; [lia|].
  rewrite waitLoop_S. tsteps. cbn [negb andb]. tsteps.
  destruct (dockerclient.InspectContainer _ _ _) as [[running]|e].
  2:{ tsteps. cbn [app]. exists (Failed e). repeat split; [constructor|].
      rewrite inspects_inspect, inspects_nil. lia. }
  cbn [Running replyOfInfo]. destruct running; cbn [negb].
  2:{ tsteps. cbn [app]. exists Exited. repeat split; [constructor|].
      rewrite inspects_inspect, inspects_nil. lia. }
  tsteps. eapply Timed_weaken.
  { apply waitLoop_later. cbn [clock]. unfold time.Second in *. lia. }
  cbn [clock]. intros r evs w' _ (ended & -> & Hl & Hn & Ht).
  exists ended. split; [reflexivity|]. cbn [app]. split; [|split].
  - destruct Hl as [[-> ->]|Hp]; [constructor|now constructor].
  - rewrite inspects_inspect, inspects_sleep.
    destruct (Z.le_gt_cases (deadline - clock w) 0) as [Hd|Hd].
    + rewrite pollBudget_zero in Hn by (unfold time.Second; lia). lia.
    + etransitivity; [apply le_n_S, Hn|].
      etransitivity; [|apply Nat.le_max_r].
      apply pollBudget_step; unfold time.Second in *; lia.
  - exact Ht.
Qed.

(** [waitForStop] always returns: its fuel covers the wait.  It inspects at
    least once and at most once per second of the wait, and it ends on the
    timer only after the wait has passed. *)
Lemma waitForStop_polling c waitTime w :
  Timed client (waitForStop client c waitTime) w
    (fun r evs w' =>
       exists ended,
         r = errorOf ended /\
         polling (ID c) evs ended /\
         (inspects evs <=
          Nat.max 1 (pollBudget (wrap64 (waitTime * time.Second)%Z)))%nat /\
         match ended with
         | TimeUp => clock w + wrap64 (waitTime * time.Second) <= clock w'
         | _ => True
         end).
Proof.
  unfold waitForStop, waitFuel. tsteps.
  rewrite Nat.add_succ_r.
  eapply Timed_weaken.
  { apply waitLoop_first; [lia|]. unfold time.Second.
    set (d := wrap64 _).
    destruct (Z.le_gt_cases 0 d) as [Hd|Hd].
    - rewrite Nat2Z.inj_add, Z2Nat.id by (apply Z.div_pos; lia).
      pose proof (Z.mod_pos_bound d 1000000000 ltac:(lia)).
      pose proof (Z.div_mod d 1000000000 ltac:(lia)). lia.
    - lia. }
  intros r evs w' _ (ended & -> & Hp & Hn & Ht).
  exists ended. rewrite app_nil_l.
  replace (clock w + wrap64 (waitTime * time.Second) - clock w)
    with (wrap64 (waitTime * time.Second)) in Hn by lia.
  auto.
Qed.

Lemma polling_effects id evs ended :
  polling id evs ended -> effects evs = evs.
Proof.
  induction 1; cbn [effects filter isLog negb]; try reflexivity.
  fold (effects evs). now rewrite IHpolling.
Qed.

(** The three ways a stop that is not dry goes: the stop signal is
    refused; the SIGKILL is refused; or both are delivered, and then the
    second polling decides: an inspect that failed gives nil, every other
    ending gives the "could not be stopped" error.  The first polling
    begins when the stop signal has been delivered, and when it ends on the
    timer it has taken the whole wait. *)
Lemma StopContainer_trace c wait w :
  Timed client (StopContainer client c wait false) w
    (fun r evs _ =>
       (exists e,
           effects evs =
             [ECall (CKillContainer (ID c) (stopSignalOf c)) (RErr e)] /\
           r = Some e)
       \/
       (exists before polls ended after,
           evs = before ++ polls ++ after /\
           effects before =
             [ECall (CKillContainer (ID c) (stopSignalOf c)) RNil] /\
           polling (ID c) polls ended /\
           (inspects polls <=
            Nat.max 1 (pollBudget (wrap64 (wait * time.Second)%Z)))%nat /\
           match ended with
           | TimeUp =>
               wrap64 (wait * time.Second) <=
               timeOf client (trace w ++ before) polls
           | _ => True
           end /\
           ((exists e,
                effects after =
                  [ECall (CKillContainer (ID c) defaultKillSignal) (RErr e)] /\
                r = Some e)
            \/
            (exists polls' ended',
                polling (ID c) polls' ended' /\
                effects after =
                  ECall (CKillContainer (ID c) defaultKillSignal) RNil ::
                  polls' /\
                r = match ended' with
                    | Failed _ => nil
                    | TimeUp | Exited =>
                        Some (fmt.Sprintf
                                "Container %s (%s) could not be stopped"
                                [Name c; ID c])
                    end)))).
Proof.
  unfold StopContainer. fold (stopSignalOf c). cbn [negb]. tsteps.
  destruct (dockerclient.KillContainer _ _ _ _) as [e|]; tsteps.
  { left. exists e. effs. auto. }
  eapply Timed_weaken; [apply waitForStop_polling|].
  cbn [clock trace].
  intros r1 polls w1 [Htr1 Hck1] (ended & -> & Hp & Hn & Ht).
  cbn [clock trace] in Htr1, Hck1.
  apply Timed_bind.
  apply Timed_weaken with (Q' := fun _ evs _ => effects evs = []).
  { destruct ended; cbn [errorOf]; tsteps; reflexivity. }
  intros [] evs0 w2 _ H0. tsteps.
  assert (Htime : match ended with
                  | TimeUp =>
                      wrap64 (wait * time.Second) <=
                      timeOf client
                        (trace w ++
                         [ELog InfoLevel "%sStopping %s (%s) with %s"
                            [AStr ""; AStr (Name c); AStr (ID c);
                             AStr (stopSignalOf c)];
                          ECall (CKillContainer (ID c) (stopSignalOf c)) RNil])
                        polls
                  | _ => True
                  end).
  { destruct ended; trivial. rewrite <- app_assoc in Hck1, Ht.
    cbn [app replyOfError] in Hck1, Ht. lia. }
  destruct (dockerclient.KillContainer _ _ _ _) as [e|]; tsteps.
  - right. eexists [_; _], polls, ended, _.
    split; [cbn [app]; reflexivity|]. split; [reflexivity|].
    do 3 (split; [assumption|]).
    left. exists e. effs. rewrite H0. auto.
  - eapply Timed_weaken; [apply waitForStop_polling|].
    intros r2 polls2 w3 _ (ended2 & -> & Hp2 & _ & _).
    destruct ended2 as [| |e2] eqn:Hended; cbn [errorOf]; tsteps;
      right; eexists [_; _], polls, ended, _;
      (split; [cbn [app]; reflexivity|]); (split; [reflexivity|]);
      (do 3 (split; [assumption|]));
      right; eexists polls2, _; (split; [exact Hp2|]);
      (split; [|reflexivity]);
      effs; rewrite H0, (polling_effects _ _ _ Hp2); reflexivity.
Qed.

Lemma polling_inspects id evs ended :
  polling id evs ended -> (1 <= inspects evs)%nat.
Proof.
  induction 1; rewrite ?inspects_inspect, ?inspects_sleep; lia.
Qed.


End ClientFacts.

(** *** The client on the daemons of its tests *)

(** [TestStopContainer_DefaultSuccess] *)
Example stop_default_success :
  container.StopContainer mock.exitsThenGone mock.foo 1 false World0 =
  Some (nil,
        {| trace :=
             [ELog InfoLevel "%sStopping %s (%s) with %s"
                [AStr ""; AStr "foo"; AStr "abc123"; AStr "SIGTERM"];
              ECall (CKillContainer "abc123" "SIGTERM") RNil;
              ECall (CInspectContainer "abc123")
                (RInfo {| Running := false |});
              ELog DebugLevel "Killing container %s with %s"
                [AStr "abc123"; AStr "SIGKILL"];
              ECall (CKillContainer "abc123" "SIGKILL") RNil;
              ECall (CInspectContainer "abc123") (RErr "Not Found")];
           clock := 0; gInterval := 0 |}).
Proof. reflexivity. Qed.

(** [TestStopContainer_CustomSignalSuccess] *)
Example stop_custom_signal :
  option_map (fun rw => (fst rw, effects (trace (snd rw))))
    (container.StopContainer mock.exitsThenGone mock.fooUSR1 1 false World0) =
  Some (nil,
        [ECall (CKillContainer "abc123" "SIGUSR1") RNil;
         ECall (CInspectContainer "abc123") (RInfo {| Running := false |});
         ECall (CKillContainer "abc123" "SIGKILL") RNil;
         ECall (CInspectContainer "abc123") (RErr "Not Found")]).
Proof. reflexivity. Qed.

(** [TestNetemContainer_Success] *)
Example netem_success :
  option_map (fun rw => (fst rw, effects (trace (snd rw))))
    (container.NetemContainer mock.exitsThenGone mock.foo "eth0"
       "delay 1000ms" None (1 * time.Millisecond) false World0) =
  Some (nil,
        [ECall (CContainerExecCreate "abc123"
                  {| Privileged := true;
                     Cmd := ["tc"; "qdisc"; "add"; "dev"; "eth0"; "root";
                             "netem"; "delay"; "1000ms"] |})
           (RExecID "testID");
         ECall (CContainerExecStart "testID") RNil;
         ESleep 1000000;
         ECall (CContainerExecCreate "abc123"
                  {| Privileged := true;
                     Cmd := ["tc"; "qdisc"; "del"; "dev"; "eth0"; "root";
                             "netem"] |})
           (RExecID "testID");
         ECall (CContainerExecStart "testID") RNil]).
Proof. reflexivity. Qed.

(** [TestNetemContainerIPFilter_Success] *)
Example netem_ip_filter_success :
  option_map (fun rw => (fst rw, effects (trace (snd rw))))
    (container.NetemContainer mock.exitsThenGone mock.foo "eth0"
       "delay 1000ms" (Some "10.10.0.1") (1 * time.Millisecond) false
       World0) =
  Some (nil,
        [ECall (CContainerExecCreate "abc123"
                  {| Privileged := true;
                     Cmd := ["tc"; "qdisc"; "add"; "dev"; "eth0"; "root";
                             "handle"; "1:"; "prio"] |})
           (RExecID "testID");
         ECall (CContainerExecStart "testID") RNil;
         ECall (CContainerExecCreate "abc123"
                  {| Privileged := true;
                     Cmd := ["tc"; "qdisc"; "add"; "dev"; "eth0"; "parent";
                             "1:3"; "netem"; "delay"; "1000ms"] |})
           (RExecID "testID");
         ECall (CContainerExecStart "testID") RNil;
         ECall (CContainerExecCreate "abc123"
                  {| Privileged := true;
                     Cmd := ["tc"; "filter"; "add"; "dev"; "eth0"; "protocol";
                             "ip"; "parent"; "1:0"; "prio"; "3"; "u32";
                             "match"; "ip"; "dport"; "10.10.0.1"; "flowid";
                             "1:3"] |})
           (RExecID "testID");
         ECall (CContainerExecStart "testID") RNil;
         ESleep 1000000;
         ECall (CContainerExecCreate "abc123"
                  {| Privileged := true;
                     Cmd := ["tc"; "qdisc"; "del"; "dev"; "eth0"; "root";
                             "netem"] |})
           (RExecID "testID");
         ECall (CContainerExecStart "testID") RNil]).
Proof. reflexivity. Qed.


(** C3, on a daemon that keeps the stopped container: both polls see a
    container that is not running, and the stop returns the "could not be
    stopped" error. *)
Theorem stop_reports_stopped_container_as_failure :
  container.StopContainer mock.exitsAndStays mock.foo 1 false World0 =
  Some (Some "Container foo (abc123) could not be stopped",
        {| trace :=
             [ELog InfoLevel "%sStopping %s (%s) with %s"
                [AStr ""; AStr "foo"; AStr "abc123"; AStr "SIGTERM"];
              ECall (CKillContainer "abc123" "SIGTERM") RNil;
              ECall (CInspectContainer "abc123")
                (RInfo {| Running := false |});
              ELog DebugLevel "Killing container %s with %s"
                [AStr "abc123"; AStr "SIGKILL"];
              ECall (CKillContainer "abc123" "SIGKILL") RNil;
              ECall (CInspectContainer "abc123")
                (RInfo {| Running := false |})];
           clock := 0; gInterval := 0 |}).
Proof. reflexivity. Qed.

(** C4, on a remove with links set and volumes not set: the request of the
    single remove call has RemoveVolumes set and RemoveLinks not set. *)
Theorem remove_swaps_links_and_volumes :
  container.RemoveContainer mock.exitsAndStays mock.foo true true false false
    World0 =
  Some (nil,
        {| trace :=
             [ELog InfoLevel "%sRemoving container %s"
                [AStr ""; AStr "abc123"];
              ECall (CContainerRemove "abc123"
                       {| RemoveVolumes := true; RemoveLinks := false;
                          Force := true |}) RNil];
           clock := 0; gInterval := 0 |}).
Proof. reflexivity. Qed.

(** ** The interface name check *)

Section InterfaceNames.
Import reInterface.

Lemma digit_not_letter a : isDigit a = true -> isLetter a = false.
Proof.
  destruct a as [[] [] [] [] [] [] [] []]; intros H;
    solve [reflexivity | discriminate H].
Qed.

Lemma takeWhile_dropWhile p s : takeWhile p s +++ dropWhile p s = s.
Proof.
  induction s as [|a s IH]; [reflexivity|]. cbn.
  destruct (p a); cbn; [now rewrite IH | reflexivity].
Qed.

Lemma takeWhile_all p s : allOf p (takeWhile p s) = true.
Proof.
  induction s as [|a s IH]; [reflexivity|]. cbn.
  destruct (p a) eqn:E; cbn; [now rewrite E | reflexivity].
Qed.

Lemma length_append s t :
  String.length (s +++ t) = (String.length s + String.length t)%nat.
Proof. induction s as [|a s IH]; cbn; [reflexivity | now rewrite IH]. Qed.

Lemma append_inj_l s t u : s +++ t = s +++ u -> t = u.
Proof.
  induction s as [|a s IH]; cbn; intros H; [exact H|].
  injection H as H. auto.
Qed.

Lemma upToTwoDigits_length s : (String.length (upToTwoDigits s) <= 2)%nat.
Proof.
  destruct s as [|a [|b s]]; cbn; try lia;
    destruct (isDigit a); cbn; try lia.
  destruct (isDigit b); cbn; lia.
Qed.

Lemma upToTwoDigits_digits s : allOf isDigit (upToTwoDigits s) = true.
Proof.
  destruct s as [|a [|b s]]; cbn; trivial;
    destruct (isDigit a) eqn:Ea; cbn; rewrite ?Ea; trivial.
  destruct (isDigit b) eqn:Eb; cbn; rewrite ?Ea, ?Eb; trivial.
Qed.

Lemma upToTwoDigits_fixed d :
  allOf isDigit d = true -> (String.length d <= 2)%nat -> upToTwoDigits d = d.
Proof.
  destruct d as [|a [|b [|c d]]]; cbn; intros H Hl; trivial.
  - apply andb_prop in H as [-> _]. reflexivity.
  - apply andb_prop in H as [-> H]. apply andb_prop in H as [-> _].
    reflexivity.
  - lia.
Qed.

Lemma upToTwoDigits_shorter s :
  (String.length (upToTwoDigits s) <= String.length s)%nat.
Proof.
  destruct s as [|a [|b s]]; cbn [upToTwoDigits]; [cbn; lia| |];
    destruct (isDigit a); cbn [String.length]; try lia.
  destruct (isDigit b); cbn [String.length]; lia.
Qed.

Lemma FindString_length s : (String.length (FindString s) <= String.length s)%nat.
Proof.
  induction s as [|a s IH]; [cbn; lia|].
  cbn [FindString]. destruct (isLetter a).
  - pose proof (f_equal String.length
                  (takeWhile_dropWhile isLetter (String a s))) as Hs.
    rewrite length_append in Hs. rewrite length_append.
    pose proof (upToTwoDigits_shorter (dropWhile isLetter (String a s))).
    lia.
  - cbn [String.length]. lia.
Qed.

Lemma takeWhile_letters_digits l d :
  allOf isLetter l = true -> allOf isDigit d = true ->
  takeWhile isLetter (l +++ d) = l /\ dropWhile isLetter (l +++ d) = d.
Proof.
  intros Hl Hd. induction l as [|a l IH]; cbn.
  - destruct d as [|x d]; [auto|]. cbn in Hd.
    apply andb_prop in Hd as [Hx _]. cbn.
    rewrite (digit_not_letter x Hx). auto.
  - cbn in Hl. apply andb_prop in Hl as [Ha Hl]. rewrite Ha.
    destruct (IH Hl) as [-> ->]. auto.
Qed.

(** The check of [netemDelay] lets pass the names that match the expression
    as a whole, and the empty name. *)
Lemma FindString_fixed s : FindString s = s <-> s = "" \/ Matches s.
Proof.
  split.
  - intros H. destruct s as [|a s]; [now left|right].
    cbn [FindString] in H. destruct (isLetter a) eqn:Ea.
    + pose proof (takeWhile_dropWhile isLetter (String a s)) as Hs.
      rewrite <- Hs in H at 3. clear Hs.
      apply append_inj_l in H.
      exists (takeWhile isLetter (String a s)),
             (dropWhile isLetter (String a s)).
      repeat split.
      * now rewrite takeWhile_dropWhile.
      * cbn. rewrite Ea. discriminate.
      * apply takeWhile_all.
      * rewrite <- H. apply upToTwoDigits_digits.
      * rewrite <- H. apply upToTwoDigits_length.
    + pose proof (FindString_length s) as Hl. rewrite H in Hl.
      cbn in Hl. lia.
  - intros [->|(l & d & -> & Hne & Hl & Hd & Hlen)]; [reflexivity|].
    destruct l as [|a l]; [congruence|].
    destruct (takeWhile_letters_digits (String a l) d Hl Hd) as [Ht Hdr].
    cbn in Hl. apply andb_prop in Hl as [Ha Hl].
    change (String a l +++ d) with (String a (l +++ d)) in *.
    cbn [FindString]. rewrite Ha, Ht, Hdr.
    now rewrite upToTwoDigits_fixed.
Qed.

Lemma empty_does_not_match : ~ Matches "".
Proof.
  intros (l & d & H & Hne & _). destruct l; [congruence|discriminate H].
Qed.
End InterfaceNames.

(** ** Package main *)

(** A single target with the re2 prefix: the pattern is what
    [strings.Trim] leaves of the whole argument. *)
Lemma getNamesOrPattern_pattern c first w :
  cli.Args c = [first] ->
  strings.HasPrefix first main.Re2Prefix = true ->
  Returns (main.getNamesOrPattern c) w
    (fun np _ _ => np = ([], strings.Trim first main.Re2Prefix)).
Proof.
  intros Ha Hp. unfold main.getNamesOrPattern. rewrite Ha.
  cbn [cli.Present length Nat.ltb Nat.leb cli.First]. rewrite Hp.
  steps. reflexivity.
Qed.

(** A single target without the re2 prefix is dropped: the names and the
    pattern are those of an invocation without targets. *)
Lemma getNamesOrPattern_single_name c first w :
  cli.Args c = [first] ->
  strings.HasPrefix first main.Re2Prefix = false ->
  main.getNamesOrPattern c w = Some (([], ""), w).
Proof.
  intros Ha Hp. unfold main.getNamesOrPattern. rewrite Ha.
  cbn [cli.Present length Nat.ltb Nat.leb cli.First]. rewrite Hp.
  reflexivity.
Qed.

(** [getNamesOrPattern] starts no scheduler and leaves the interval. *)
Lemma getNamesOrPattern_quiet c w :
  Returns (main.getNamesOrPattern c) w
    (fun _ evs w' => effects evs = [] /\ gInterval w' = gInterval w).
Proof.
  unfold main.getNamesOrPattern.
  destruct (cli.Present (cli.Args c)); [|steps; auto].
  destruct (1 <? length (cli.Args c))%nat; [steps; auto|].
  destruct (strings.HasPrefix _ _); steps; auto.
Qed.

(** C5, on the single target [re2:redis]: the pattern is [dis], not
    [redis]; the letters r and e that follow the prefix are trimmed with
    it. *)
Theorem re2_prefix_is_trimmed_as_a_cutset :
  main.getNamesOrPattern (cmdline.targets "10s" ["re2:redis"]) World0 =
  Some (([], "dis"),
        {| trace := [ELog DebugLevel "Pattern: '%s'" [AStr "dis"]];
           clock := 0; gInterval := 0 |}).
Proof. reflexivity. Qed.

(** The trim works at the end of the argument as well. *)
Example re2_pattern_loses_its_end :
  option_map fst
    (main.getNamesOrPattern (cmdline.targets "10s" ["re2:^svc-.*e"]) World0) =
  Some ([], "^svc-.*").
Proof. reflexivity. Qed.

(** Scenario "kill by regex" of the specification: this pattern is kept. *)
Example re2_pattern_svc :
  option_map fst
    (main.getNamesOrPattern (cmdline.targets "10s" ["re2:^svc-"]) World0) =
  Some ([], "^svc-").
Proof. reflexivity. Qed.

(** C6, on the single target [web]: the name list is empty and so is the
    pattern, which is the result for no target at all, the selection of
    all containers. *)
Theorem single_name_selects_all_containers :
  main.getNamesOrPattern (cmdline.targets "10s" ["web"]) World0 =
    Some (([], ""), World0) /\
  main.getNamesOrPattern (cmdline.targets "10s" []) World0 =
    Some (([], ""), World0).
Proof. split; reflexivity. Qed.

(** Two targets or more are a name list. *)
Example two_names :
  option_map fst
    (main.getNamesOrPattern (cmdline.targets "10s" ["a"; "c"]) World0) =
  Some (["a"; "c"], "").
Proof. reflexivity. Qed.

Section CommandFacts.
Variable ParseDuration : string -> Result Duration.
Variable ParseIP : string -> option net.IP.

Lemma beforeCommand_sets_interval c interval w :
  String.eqb (cli.GlobalString c "interval") "" = false ->
  ParseDuration (cli.GlobalString c "interval") = Ok interval ->
  Returns (main.beforeCommand ParseDuration c) w
    (fun r evs w' => r = nil /\ evs = [] /\ gInterval w' = interval).
Proof.
  intros Hne Hp. unfold main.beforeCommand. rewrite Hne, Hp. steps. auto.
Qed.

(** C7, as amended.  For pause and for netem delay the validation looks at
    the interval and at the duration one by one and never compares them.
    When the interval is defined, parses and is positive, a pause whose
    duration is defined and parses, and a netem delay whose duration is
    defined and parses and whose interface, amount, variation and
    correlation pass their checks, reach the start of the scheduler on that
    interval with that duration, whatever the order of the two.  (An
    interval that is not positive makes the ticker of the scheduler
    panic.) *)
Theorem duration_is_not_compared_with_interval
    cp cn parent interval pauseDuration netemDuration w :
  0 < interval ->
  String.eqb (cli.GlobalString cp "interval") "" = false ->
  ParseDuration (cli.GlobalString cp "interval") = Ok interval ->
  String.eqb (cli.String_ cp "duration") "" = false ->
  ParseDuration (cli.String_ cp "duration") = Ok pauseDuration ->
  String.eqb (cli.GlobalString cn "interval") "" = false ->
  ParseDuration (cli.GlobalString cn "interval") = Ok interval ->
  cli.Parent cn = Some parent ->
  String.eqb (cli.String_ parent "duration") "" = false ->
  ParseDuration (cli.String_ parent "duration") = Ok netemDuration ->
  reInterface.FindString (cli.String_ parent "interface") =
    cli.String_ parent "interface" ->
  0 < cli.Int cn "amount" ->
  0 <= cli.Int cn "variation" <= cli.Int cn "amount" ->
  0 <= cli.Int cn "correlation" <= 100 ->
  Returns (main.Run (main.beforeCommand ParseDuration)
             (main.pause ParseDuration) cp) w
    (fun _ evs _ =>
       exists names pattern,
         effects evs =
           [ERunChaosCommand interval (CommandPause pauseDuration)
              names pattern]) /\
  Returns (main.Run (main.beforeCommand ParseDuration)
             (main.netemDelay ParseDuration ParseIP) cn) w
    (fun _ evs _ =>
       exists names pattern,
         effects evs =
           [ERunChaosCommand interval
              (CommandNetemDelay (cli.String_ parent "interface")
                 (ParseIP (cli.String_ parent "target")) netemDuration
                 (cli.Int cn "amount") (cli.Int cn "variation")
                 (cli.Int cn "correlation"))
              names pattern]).
Proof.
  intros Hpos Hpi Hpi' Hpd Hpd' Hni Hni' Hparent Hnd Hnd' Hif Ham Hvar Hcor.
  split.
  - unfold main.Run. apply Returns_bind.
    eapply Returns_weaken; [apply beforeCommand_sets_interval; eassumption|].
    intros r evs w1 (-> & -> & Hg). cbv iota delta [nil].
    unfold main.pause. apply Returns_bind.
    eapply Returns_weaken; [apply getNamesOrPattern_quiet|].
    intros [names pattern] evs w2 [He Hg2]. rewrite Hpd, Hpd'. steps.
    exists names, pattern. effs.
    rewrite He, Hg2, Hg. reflexivity.
  - unfold main.Run. apply Returns_bind.
    eapply Returns_weaken; [apply beforeCommand_sets_interval; eassumption|].
    intros r evs w1 (-> & -> & Hg). cbv iota delta [nil].
    unfold main.netemDelay. apply Returns_bind.
    eapply Returns_weaken; [apply getNamesOrPattern_quiet|].
    intros [names pattern] evs w2 [He Hg2].
    rewrite Hparent, Hnd, Hnd', Hif, String.eqb_refl. cbn [negb].
    destruct (Z.leb_spec (cli.Int cn "amount") 0); [lia|].
    destruct (Z.ltb_spec (cli.Int cn "variation") 0); [lia|].
    destruct (Z.ltb_spec (cli.Int cn "amount") (cli.Int cn "variation"));
      [lia|].
    destruct (Z.ltb_spec (cli.Int cn "correlation") 0); [lia|].
    destruct (Z.ltb_spec 100 (cli.Int cn "correlation")); [lia|].
    cbn [orb]. steps.
    exists names, pattern. effs.
    rewrite He, Hg2, Hg. reflexivity.
Qed.

End CommandFacts.

(** [pumba --interval 3s pause --duration 5s] and
    [pumba --interval 3s netem --duration 5s delay]: both reach the start
    of the scheduler. *)
Lemma duration_is_not_compared_with_interval_witness :
  Returns (main.Run (main.beforeCommand golib.ParseDuration)
             (main.pause golib.ParseDuration)
             (cmdline.pause "3s" "5s" [])) World0
    (fun _ evs _ =>
       exists names pattern,
         effects evs =
           [ERunChaosCommand 3000000000 (CommandPause 5000000000)
              names pattern]) /\
  Returns (main.Run (main.beforeCommand golib.ParseDuration)
             (main.netemDelay golib.ParseDuration (fun _ => None))
             (cmdline.netemDelay "3s" [("duration", "5s")] [] [])) World0
    (fun _ evs _ =>
       exists names pattern,
         effects evs =
           [ERunChaosCommand 3000000000
              (CommandNetemDelay "eth0" None 5000000000 100 10 20)
              names pattern]).
Proof.
  apply (duration_is_not_compared_with_interval golib.ParseDuration
           (fun _ => None)
           (cmdline.pause "3s" "5s" [])
           (cmdline.netemDelay "3s" [("duration", "5s")] [] [])
           {| cli.Args := [];
              cli.GlobalString :=
                cmdline.flags [("interval", "3s")] cmdline.noString;
              cli.String_ :=
                cmdline.flags [("duration", "5s")] cmdline.netemDefaults;
              cli.Int := cmdline.noInt;
              cli.BoolT := fun _ => true;
              cli.Parent := Some (cmdline.app "3s") |}
           3000000000 5000000000 5000000000 World0);
    try reflexivity; split; apply Z.leb_le; vm_compute; reflexivity.
Defined.

(** C7, the claim as stated fails: it is not so that the scheduler only
    starts a pause whose duration is below the interval.
    [pumba --interval 3s pause --duration 5s] passes the validation and
    starts the scheduler with a pause of five seconds every three. *)
Lemma pause_longer_than_interval_is_scheduled :
  ~ (forall (ParseDuration : string -> Result Duration) c r w',
        main.Run (main.beforeCommand ParseDuration)
          (main.pause ParseDuration) c World0 = Some (r, w') ->
        forall interval duration names pattern,
          In (ERunChaosCommand interval (CommandPause duration) names pattern)
            (trace w') ->
          duration < interval).
Proof.
  intros H.
  specialize (H golib.ParseDuration (cmdline.pause "3s" "5s" []) _ _ eq_refl
                3000000000 5000000000 [] "" (or_introl eq_refl)).
  lia.
Qed.

(** C9, on an empty interface name:
    [pumba --interval 10s netem --duration 1s --interface "" delay] passes
    the validation and starts the scheduler with the empty name, which does
    not match the expression. *)
Theorem netemDelay_accepts_empty_interface
    (ParseIP : string -> option net.IP) :
  main.Run (main.beforeCommand golib.ParseDuration)
    (main.netemDelay golib.ParseDuration ParseIP)
    (cmdline.netemDelay "10s" [("duration", "1s"); ("interface", "")] [] [])
    World0 =
  Some (nil,
        {| trace :=
             [ERunChaosCommand 10000000000
                (CommandNetemDelay "" (ParseIP "") 1000000000 100 10 20)
                [] ""];
           clock := 0; gInterval := 10000000000 |}) /\
  ~ reInterface.Matches "".
Proof. split; [reflexivity | apply empty_does_not_match]. Qed.

(** Names that carry a command are refused. *)
Example netemDelay_rejects_injection :
  option_map fst
    (main.Run (main.beforeCommand golib.ParseDuration)
       (main.netemDelay golib.ParseDuration (fun _ => None))
       (cmdline.netemDelay "10s"
          [("duration", "1s"); ("interface", "eth0;reboot")] [] [])
       World0) =
  Some (Some "Bad network interface name. Must match '[a-zA-Z]+[0-9]{0,2}'").
Proof. reflexivity. Qed.

(** [pumba --interval 0s kill --signal SIGKILL]: the interval parses and
    the signal is in the table, and the ticker of the scheduler panics. *)
Example zero_interval_panics :
  main.Run (main.beforeCommand golib.ParseDuration) main.kill
    (cmdline.kill "0s" "SIGKILL" []) World0 = None.
Proof. reflexivity. Qed.

(** * More of the program *)

(** ** The commands of package main *)

(** Reading the targets logs at the debug level only. *)
Lemma getNamesOrPattern_only_debug c w :
  Returns (main.getNamesOrPattern c) w
    (fun _ evs w' => effects evs = [] /\ filter isErrorLog evs = [] /\
                     gInterval w' = gInterval w).
Proof.
  unfold main.getNamesOrPattern.
  destruct (cli.Present (cli.Args c)); [|steps; auto].
  destruct (1 <? length (cli.Args c))%nat; [steps; auto|].
  destruct (strings.HasPrefix _ _); steps; auto.
Qed.

Ltac names_then :=
  apply Returns_bind;
  eapply Returns_weaken; [apply getNamesOrPattern_only_debug|];
  intros [? ?] ? ? (? & ? & ?).

Ltac quiet_names :=
  lazymatch goal with
  | He : effects ?evs = [], Hl : filter isErrorLog ?evs = [],
    Hg : gInterval _ = gInterval _ |- _ =>
      rewrite ?effects_app, ?filter_app, ?He, ?Hl, ?Hg
  end.

Ltac reject :=
  steps; right; eexists; split; [reflexivity|];
  quiet_names; split; reflexivity.

Ltac scheduled_now :=
  lazymatch goal with
  | Hg : gInterval _ = gInterval _ |- _ => rewrite Hg
  end;
  eexists _, _, _, _; rewrite ?app_nil_r;
  split; [reflexivity|]; split; assumption.

Ltac schedule := steps; left; scheduled_now.

Section CommandEnds.
Variable ParseDuration : string -> Result Duration.
Variable ParseIP : string -> option net.IP.

(** X3. With a positive interval every command ends in one of two ways.
    Kill, pause and netem delay either reach the start of the scheduler,
    as their last event and their only effect, having logged no error
    before it, or return an error, log that error exactly once at the error
    level and start nothing.  Remove and stop have no check of their own
    and always end the first way. *)
Theorem commands_schedule_or_reject_and_log c w :
  0 < gInterval w ->
  let ends r evs (_ : World) := scheduled w evs \/ rejected r evs in
  Returns (main.kill c) w ends /\
  Returns (main.pause ParseDuration c) w ends /\
  Returns (main.netemDelay ParseDuration ParseIP c) w ends /\
  Returns (main.remove c) w (fun _ evs _ => scheduled w evs) /\
  Returns (main.stop c) w (fun _ evs _ => scheduled w evs).
Proof.
  intros Hpos. cbv zeta. repeat split.
  - unfold main.kill. names_then.
    destruct (main.lookupSignal _ _); [schedule|reject].
  - unfold main.pause. names_then.
    destruct (String.eqb _ ""); [reject|].
    destruct (ParseDuration _); [schedule|reject].
  - unfold main.netemDelay. names_then.
    destruct (String.eqb _ ""); [reject|].
    destruct (ParseDuration _) as [duration|e]; [|reject].
    destruct (match cli.Parent c with Some _ => _ | None => _ end)
      as [[netInterface ip]|e]; [|reject].
    destruct (_ <=? 0); [reject|].
    destruct (_ || _); [reject|].
    destruct (_ || _); [reject|schedule].
  - unfold main.remove. names_then. steps. scheduled_now.
  - unfold main.stop. names_then. steps. scheduled_now.
Qed.
End CommandEnds.

(** [pumba --interval 10s kill --signal SIGKILL], and the other commands on
    the same command line, once the hook has set the interval. *)
Lemma commands_schedule_or_reject_and_log_witness :
  let c := cmdline.kill "10s" "SIGKILL" [] in
  let w := WorldEvery10s in
  let ends r evs (_ : World) := scheduled w evs \/ rejected r evs in
  Returns (main.kill c) w ends /\
  Returns (main.pause golib.ParseDuration c) w ends /\
  Returns (main.netemDelay golib.ParseDuration (fun _ => None) c) w ends /\
  Returns (main.remove c) w (fun _ evs _ => scheduled w evs) /\
  Returns (main.stop c) w (fun _ evs _ => scheduled w evs).
Proof.
  apply (commands_schedule_or_reject_and_log golib.ParseDuration
           (fun _ => None) (cmdline.kill "10s" "SIGKILL" []) WorldEvery10s).
  reflexivity.
Defined.

Lemma lookupSignal_None signal table :
  main.lookupSignal signal table = None <-> ~ In signal (map fst table).
Proof.
  induction table as [|[name number] rest IH]; cbn.
  - tauto.
  - destruct (String.eqb_spec name signal).
    + split; [discriminate|]. intros H. exfalso. apply H. now left.
    + rewrite IH. tauto.
Qed.

(** X4. With a positive interval, kill reaches the start of the scheduler
    exactly for the thirty signal names of the table, spelled as in the
    table; for any other text of the signal flag it returns
    "Unexpected signal: " followed by the text and starts nothing. *)
Theorem kill_accepts_the_names_of_the_table c w :
  0 < gInterval w ->
  let signal := cli.String_ c "signal" in
  Returns (main.kill c) w
    (fun r evs _ =>
       (In signal (map fst main.LinuxSignals) /\
        exists names pattern,
          effects evs =
            [ERunChaosCommand (gInterval w) (CommandKill signal)
               names pattern])
       \/
       (~ In signal (map fst main.LinuxSignals) /\
        r = Some ("Unexpected signal: " +++ signal) /\
        effects evs = [])).
Proof.
  intros Hpos. cbv zeta. unfold main.kill. names_then.
  destruct (main.lookupSignal _ _) eqn:E; steps.
  - left. split.
    + destruct (in_dec string_dec (cli.String_ c "signal")
                  (map fst main.LinuxSignals)) as [Hin|Hout]; [exact Hin|].
      apply lookupSignal_None in Hout. congruence.
    + quiet_names. eexists _, _. reflexivity.
  - right. split; [now apply lookupSignal_None|].
    split; [reflexivity|]. quiet_names. reflexivity.
Qed.

(** [pumba --interval 10s kill --signal SIGKILL], once the hook has set the
    interval. *)
Lemma kill_accepts_the_names_of_the_table_witness :
  let c := cmdline.kill "10s" "SIGKILL" [] in
  let w := WorldEvery10s in
  let signal := cli.String_ c "signal" in
  Returns (main.kill c) w
    (fun r evs _ =>
       (In signal (map fst main.LinuxSignals) /\
        exists names pattern,
          effects evs =
            [ERunChaosCommand (gInterval w) (CommandKill signal)
               names pattern])
       \/
       (~ In signal (map fst main.LinuxSignals) /\
        r = Some ("Unexpected signal: " +++ signal) /\
        effects evs = [])).
Proof.
  apply (kill_accepts_the_names_of_the_table
           (cmdline.kill "10s" "SIGKILL" []) WorldEvery10s).
  reflexivity.
Defined.

Section CheckedValues.
Variable ParseDuration : string -> Result Duration.
Variable ParseIP : string -> option net.IP.

(** X5. What netem delay hands to the scheduler has passed every check.
    With a positive interval, either the command is refused and nothing
    starts, or it reaches the start of the scheduler with the flags of the
    command line, and then the parent context exists, the duration is the
    parsed duration flag, the interface name is empty or matches the
    expression as a whole, the amount is positive, the variation lies
    between 0 and the amount and the correlation between 0 and 100. *)
Theorem netemDelay_schedules_checked_values c w :
  0 < gInterval w ->
  Returns (main.netemDelay ParseDuration ParseIP c) w
    (fun r evs _ =>
       (exists e, r = Some e /\ effects evs = [])
       \/
       (exists parent duration names pattern,
           let netInterface := cli.String_ parent "interface" in
           let amount := cli.Int c "amount" in
           let variation := cli.Int c "variation" in
           let correlation := cli.Int c "correlation" in
           effects evs =
             [ERunChaosCommand (gInterval w)
                (CommandNetemDelay netInterface
                   (ParseIP (cli.String_ parent "target")) duration
                   amount variation correlation)
                names pattern] /\
           cli.Parent c = Some parent /\
           ParseDuration (cli.String_ parent "duration") = Ok duration /\
           (netInterface = "" \/ reInterface.Matches netInterface) /\
           0 < amount /\ 0 <= variation <= amount /\
           0 <= correlation <= 100)).
Proof.
  intros Hpos. unfold main.netemDelay. names_then.
  destruct (cli.Parent c) as [parent|] eqn:Hparent.
  2:{ cbn [String.eqb]. steps. left. eexists. split; [reflexivity|].
      quiet_names. reflexivity. }
  destruct (String.eqb _ "").
  { steps. left. eexists. split; [reflexivity|]. quiet_names. reflexivity. }
  destruct (ParseDuration _) as [duration|e] eqn:Hd.
  2:{ steps. left. eexists. split; [reflexivity|]. quiet_names. reflexivity. }
  destruct (String.eqb_spec (cli.String_ parent "interface")
              (reInterface.FindString (cli.String_ parent "interface")))
    as [Hif|Hif]; cbn [negb].
  2:{ steps. left. eexists. split; [reflexivity|]. quiet_names. reflexivity. }
  destruct (Z.leb_spec (cli.Int c "amount") 0).
  { steps. left. eexists. split; [reflexivity|]. quiet_names. reflexivity. }
  destruct (Z.ltb_spec (cli.Int c "variation") 0); cbn [orb].
  { steps. left. eexists. split; [reflexivity|]. quiet_names. reflexivity. }
  destruct (Z.ltb_spec (cli.Int c "amount") (cli.Int c "variation")).
  { steps. left. eexists. split; [reflexivity|]. quiet_names. reflexivity. }
  destruct (Z.ltb_spec (cli.Int c "correlation") 0); cbn [orb].
  { steps. left. eexists. split; [reflexivity|]. quiet_names. reflexivity. }
  destruct (Z.ltb_spec 100 (cli.Int c "correlation")).
  { steps. left. eexists. split; [reflexivity|]. quiet_names. reflexivity. }
  steps. right. exists parent, duration. eexists _, _. cbv zeta.
  split; [quiet_names; reflexivity|].
  split; [reflexivity|]. split; [exact Hd|].
  split; [apply FindString_fixed; congruence|]. lia.
Qed.

(** X6. The hook before every chaos command decides on the interval flag
    alone.  With an empty flag the run returns "Undefined interval value."
    and with a flag that does not parse the error of the parser, in both
    cases leaving the world as it was: the action does not run and nothing
    is logged.  Otherwise the action runs in the world whose interval is
    the parsed flag. *)
Theorem Run_rejects_without_effect_or_sets_the_interval
    (action : cli.Context -> M error) c w :
  let intervalString := cli.GlobalString c "interval" in
  (intervalString = "" /\
   main.Run (main.beforeCommand ParseDuration) action c w =
     Some (Some "Undefined interval value.", w))
  \/
  (exists e,
      intervalString <> "" /\ ParseDuration intervalString = Err e /\
      main.Run (main.beforeCommand ParseDuration) action c w =
        Some (Some e, w))
  \/
  (exists interval,
      intervalString <> "" /\ ParseDuration intervalString = Ok interval /\
      main.Run (main.beforeCommand ParseDuration) action c w =
        action c {| trace := trace w; clock := clock w;
                    gInterval := interval |}).
Proof.
  cbv zeta. unfold main.Run, main.beforeCommand, bind, ret.
  destruct (String.eqb_spec (cli.GlobalString c "interval") "") as [He|Hne].
  - left. split; [exact He|reflexivity].
  - right. destruct (ParseDuration _) as [interval|e].
    + right. exists interval. repeat split; trivial.
    + left. exists e. repeat split; trivial.
Qed.
End CheckedValues.

(** [pumba --interval 10s netem --duration 1s delay], once the hook has set
    the interval. *)
Lemma netemDelay_schedules_checked_values_witness :
  let c := cmdline.netemDelay "10s" [("duration", "1s")] [] [] in
  let w := WorldEvery10s in
  Returns (main.netemDelay golib.ParseDuration (fun _ => None) c) w
    (fun r evs _ =>
       (exists e, r = Some e /\ effects evs = [])
       \/
       (exists parent duration names pattern,
           let netInterface := cli.String_ parent "interface" in
           let amount := cli.Int c "amount" in
           let variation := cli.Int c "variation" in
           let correlation := cli.Int c "correlation" in
           effects evs =
             [ERunChaosCommand (gInterval w)
                (CommandNetemDelay netInterface None duration
                   amount variation correlation)
                names pattern] /\
           cli.Parent c = Some parent /\
           golib.ParseDuration (cli.String_ parent "duration") =
             Ok duration /\
           (netInterface = "" \/ reInterface.Matches netInterface) /\
           0 < amount /\ 0 <= variation <= amount /\
           0 <= correlation <= 100)).
Proof.
  apply (netemDelay_schedules_checked_values golib.ParseDuration
           (fun _ => None)
           (cmdline.netemDelay "10s" [("duration", "1s")] [] [])
           WorldEvery10s).
  reflexivity.
Defined.

Section TrimFacts.
Import strings.

Lemma trimLeftList_head l cutset :
  headInList cutset (trimLeftList l cutset) = false.
Proof.
  induction l as [|a l IH]; [reflexivity|]. cbn [trimLeftList].
  destruct (inCutset a cutset) eqn:E; [exact IH|]. cbn. exact E.
Qed.

Lemma trimLeftList_suffix l cutset :
  exists dropped, l = dropped ++ trimLeftList l cutset.
Proof.
  induction l as [|a l [d IH]]; [now exists []|]. cbn [trimLeftList].
  destruct (inCutset a cutset).
  - exists (a :: d). cbn. now rewrite <- IH.
  - now exists [].
Qed.

Lemma trimLeftList_fixed l cutset :
  headInList cutset l = false -> trimLeftList l cutset = l.
Proof.
  destruct l as [|a l]; [reflexivity|]. cbn. now intros ->.
Qed.

Lemma headIn_of_list cutset l :
  headIn cutset (string_of_list_ascii l) = headInList cutset l.
Proof. now destruct l. Qed.

Lemma lastIn_of_list cutset l :
  lastIn cutset (string_of_list_ascii l) = headInList cutset (rev l).
Proof.
  unfold lastIn. rewrite list_ascii_of_string_of_list_ascii.
  now destruct (rev l).
Qed.

Lemma Trim_trimmed s cutset :
  headIn cutset (Trim s cutset) = false /\
  lastIn cutset (Trim s cutset) = false.
Proof.
  unfold Trim, TrimRight, TrimLeft.
  rewrite list_ascii_of_string_of_list_ascii.
  set (L := trimLeftList (list_ascii_of_string s) cutset).
  rewrite headIn_of_list, lastIn_of_list, rev_involutive.
  split; [|apply trimLeftList_head].
  destruct (trimLeftList_suffix (rev L) cutset) as [d Hd].
  apply (f_equal (@rev ascii)) in Hd.
  rewrite rev_involutive, rev_app_distr in Hd.
  pose proof (trimLeftList_head (list_ascii_of_string s) cutset) as HL.
  fold L in HL. rewrite Hd in HL.
  destruct (rev (trimLeftList (rev L) cutset)); [reflexivity|exact HL].
Qed.

Lemma Trim_prefix_kept rest :
  headIn "re2:" rest = false -> lastIn "re2:" rest = false ->
  Trim ("re2:" +++ rest) "re2:" = rest.
Proof.
  intros Hh Hl. unfold Trim, TrimRight, TrimLeft.
  rewrite list_ascii_of_string_of_list_ascii.
  change (list_ascii_of_string ("re2:" +++ rest))
    with ("r"%char :: "e"%char :: "2"%char :: ":"%char
          :: list_ascii_of_string rest).
  change (trimLeftList ("r"%char :: "e"%char :: "2"%char :: ":"%char
                        :: list_ascii_of_string rest) "re2:")
    with (trimLeftList (list_ascii_of_string rest) "re2:").
  rewrite (trimLeftList_fixed (list_ascii_of_string rest)).
  2:{ rewrite <- headIn_of_list, string_of_list_ascii_of_string. exact Hh. }
  rewrite trimLeftList_fixed.
  2:{ unfold lastIn in Hl. exact Hl. }
  now rewrite rev_involutive, string_of_list_ascii_of_string.
Qed.
End TrimFacts.

(** X1. The targets give a name list or a pattern, never both, and reading
    them starts nothing: with two or more arguments the names are the
    arguments as given and the pattern is empty; with at most one argument
    there are no names, and the pattern neither begins nor ends with one of
    the bytes r, e, 2 and ':' of the prefix. *)
Theorem targets_are_names_or_a_trimmed_pattern c w :
  Returns (main.getNamesOrPattern c) w
    (fun np evs _ =>
       effects evs = [] /\
       (((2 <= length (cli.Args c))%nat /\ np = (cli.Args c, ""))
        \/
        ((length (cli.Args c) <= 1)%nat /\ fst np = [] /\
         headIn main.Re2Prefix (snd np) = false /\
         lastIn main.Re2Prefix (snd np) = false))).
Proof.
  unfold main.getNamesOrPattern.
  destruct (cli.Args c) as [|first [|second more]];
    cbn [cli.Present length Nat.ltb Nat.leb cli.First].
  - steps. split; [reflexivity|]. right. cbn. auto.
  - destruct (strings.HasPrefix first main.Re2Prefix); steps.
    + split; [reflexivity|]. right. cbn [length fst snd].
      destruct (Trim_trimmed first main.Re2Prefix). auto.
    + split; [reflexivity|]. right. cbn. auto.
  - steps. split; [reflexivity|]. left. cbn [length]. split; [lia|reflexivity].
Qed.

(** X2. For a single target [re2:] followed by an expression that neither
    begins nor ends with one of the bytes r, e, 2 and ':', the pattern is
    that expression, unchanged. *)
Theorem re2_pattern_is_kept_when_its_ends_are_not_in_the_prefix c rest w :
  cli.Args c = [main.Re2Prefix +++ rest] ->
  headIn main.Re2Prefix rest = false ->
  lastIn main.Re2Prefix rest = false ->
  Returns (main.getNamesOrPattern c) w (fun np _ _ => np = ([], rest)).
Proof.
  intros Ha Hh Hl.
  eapply Returns_weaken;
    [apply (getNamesOrPattern_pattern c (main.Re2Prefix +++ rest));
     [exact Ha|destruct rest; reflexivity]|].
  intros np _ _ ->. f_equal. exact (Trim_prefix_kept rest Hh Hl).
Qed.

(** The pattern of the scenario "kill by regex". *)
Lemma re2_pattern_is_kept_witness :
  Returns (main.getNamesOrPattern (cmdline.targets "10s" ["re2:^svc-"])) World0
    (fun np _ _ => np = ([], "^svc-")).
Proof.
  apply (re2_pattern_is_kept_when_its_ends_are_not_in_the_prefix
           (cmdline.targets "10s" ["re2:^svc-"]) "^svc-" World0);
    reflexivity.
Defined.

(** ** The operations of the client *)

Lemma Returns_clock {A} (m : M A) w Q :
  Returns m w Q ->
  Returns m w (fun a evs w' => Q a evs w' /\ clock w <= clock w').
Proof.
  intros (a & evs & w' & Hr & HQ). exists a, evs, w'.
  split; [exact Hr|]. split; [exact HQ|]. apply Hr.
Qed.

Lemma addresses_effects id evs :
  Forall (fun e => addresses id e = true) (effects evs) ->
  Forall (fun e => addresses id e = true) evs.
Proof.
  induction evs as [|e evs IH]; [constructor|].
  destruct e; cbn [effects filter isLog negb]; intros H.
  - constructor; [reflexivity|auto].
  - inversion H; subst. constructor; auto.
  - inversion H; subst. constructor; auto.
  - inversion H; subst. constructor; auto.
Qed.

Lemma polling_addresses id evs r :
  polling id evs r -> Forall (fun e => addresses id e = true) evs.
Proof.
  induction 1; repeat constructor; trivial;
    unfold addresses; cbn; apply String.eqb_refl.
Qed.

Lemma polling_failed_last id evs e :
  polling id evs (Failed e) ->
  exists before, evs = before ++ [ECall (CInspectContainer id) (RErr e)].
Proof.
  intros H. remember (Failed e) as r eqn:Hr.
  induction H as [e'| | |evs r H IH]; try discriminate.
  - injection Hr as ->. now exists [].
  - destruct (IH Hr) as [before ->].
    now exists (ECall (CInspectContainer id) (RInfo {| Running := true |})
                :: ESleep (1 * time.Second) :: before).
Qed.

Section MoreClientFacts.
Import container.
Variable client : dockerClient.

Ltac api :=
  unfold api_KillContainer, api_InspectContainer, api_PauseContainer,
    api_UnpauseContainer, apiClient_ContainerRemove,
    apiClient_ContainerExecCreate, apiClient_ContainerExecStart.

Ltac addressed :=
  cbn [app]; repeat constructor; unfold addresses; cbn [callTarget];
  try reflexivity; apply String.eqb_refl.

(** X7. A pause that is not dry makes the pause call; when that fails it
    returns the error and neither sleeps nor unpauses; when it succeeds it
    sleeps for the duration, makes exactly one unpause call, returns what
    the unpause returned, and at least the duration has passed on the
    clock. *)
Theorem pause_unpauses_once_after_the_duration c duration w :
  Returns (PauseContainer client c duration false) w
    (fun r evs w' =>
       (exists e,
           effects evs = [ECall (CPauseContainer (ID c)) (RErr e)] /\
           r = Some e)
       \/
       (effects evs =
          [ECall (CPauseContainer (ID c)) RNil; ESleep duration;
           ECall (CUnpauseContainer (ID c)) (replyOfError r)] /\
        clock w + Z.max 0 duration <= clock w')).
Proof.
  unfold PauseContainer. cbn [negb]. api. steps.
  destruct (dockerclient.PauseContainer _ _ _) as [e|]; steps.
  { left. exists e. split; reflexivity. }
  destruct (dockerclient.UnpauseContainer _ _ _) as [e|]; steps;
    right; (split; [reflexivity|lia]).
Qed.

Lemma execOnContainer_addresses c cmd privileged w :
  Returns (execOnContainer client c cmd privileged) w
    (fun _ evs _ => Forall (fun e => addresses (ID c) e = true) evs).
Proof.
  unfold execOnContainer. api. steps.
  destruct (engineapi.ContainerExecCreate _ _ _ _) as [execID|e]; steps;
    addressed.
Qed.

Tactic Notation "exec_addressed" ident(r) ident(H) :=
  eapply Returns_weaken; [apply execOnContainer_addresses|];
  intros r ? ? H.

Lemma Forall_addresses_cons id e evs :
  addresses id e = true ->
  Forall (fun e => addresses id e = true) evs ->
  Forall (fun e => addresses id e = true) (e :: evs).
Proof. now constructor. Qed.

Lemma NetemContainer_addresses c netInterface netemCmd targetIP duration
    dryrun w :
  Returns (NetemContainer client c netInterface netemCmd targetIP duration
             dryrun) w
    (fun _ evs _ => Forall (fun e => addresses (ID c) e = true) evs).
Proof.
  unfold NetemContainer. apply Returns_bind.
  apply Returns_weaken with
    (Q' := fun _ evs _ => Forall (fun e => addresses (ID c) e = true) evs).
  { unfold startNetemContainer, startNetemContainerIPFilter.
    destruct dryrun; cbn [negb]; destruct targetIP as [ip|]; steps;
      try addressed.
    - exec_addressed r1 H1. destruct r1 as [e|]; steps.
      { cbn [app]. repeat (apply Forall_addresses_cons; [reflexivity|]).
        rewrite app_nil_r. assumption. }
      exec_addressed r2 H2. destruct r2 as [e|]; steps.
      { cbn [app]. repeat (apply Forall_addresses_cons; [reflexivity|]).
        apply Forall_app. split; [assumption|].
        apply Forall_addresses_cons; [reflexivity|].
        rewrite app_nil_r. assumption. }
      exec_addressed r3 H3.
      cbn [app]. repeat (apply Forall_addresses_cons; [reflexivity|]).
      apply Forall_app. split; [assumption|].
      apply Forall_addresses_cons; [reflexivity|].
      apply Forall_app. split; [assumption|].
      apply Forall_addresses_cons; [reflexivity|]. assumption.
    - exec_addressed r4 H4.
      cbn [app]. repeat (apply Forall_addresses_cons; [reflexivity|]).
      assumption. }
  intros r1 evs1 w1 H1. destruct r1 as [e|]; steps.
  { rewrite app_nil_r. assumption. }
  unfold stopNetemContainer. destruct dryrun; cbn [negb]; steps.
  - apply Forall_app. split; [assumption|]. addressed.
  - exec_addressed r5 H5. apply Forall_app. split; [assumption|].
    cbn [app]. repeat (apply Forall_addresses_cons; [reflexivity|]).
    assumption.
Qed.

Lemma StopContainer_addresses c wait dryrun w :
  Returns (StopContainer client c wait dryrun) w
    (fun _ evs _ => Forall (fun e => addresses (ID c) e = true) evs).
Proof.
  destruct dryrun.
  { unfold StopContainer. cbn [negb]. steps. addressed. }
  eapply Returns_weaken; [apply StopContainer_trace|].
  intros r evs w' [_ H].
  destruct H as [(e & He & _)|(before & polls & ended & after & -> & Hb & Hp
                               & _ & _ & H)].
  { apply addresses_effects. rewrite He. addressed. }
  apply polling_addresses in Hp.
  apply Forall_app. split; [|apply Forall_app; split; [assumption|]];
    apply addresses_effects.
  { rewrite Hb. addressed. }
  destruct H as [(e & -> & _)|(polls' & ended' & Hp' & -> & _)].
  - addressed.
  - apply polling_addresses in Hp'.
    apply Forall_addresses_cons; [|assumption].
    unfold addresses; cbn; apply String.eqb_refl.
Qed.

(** X9. Dry or not, kill, stop, remove, pause and netem name no container
    but the one they were given: every kill, inspect, pause, unpause,
    remove and exec-create call of the run carries the ID of that
    container. *)
Theorem operations_address_only_their_container
    c signal wait force links volumes netInterface netemCmd targetIP duration
    dryrun w :
  let own m :=
    Returns m w
      (fun (_ : error) evs _ =>
         Forall (fun e => addresses (ID c) e = true) evs) in
  own (KillContainer client c signal dryrun) /\
  own (StopContainer client c wait dryrun) /\
  own (RemoveContainer client c force links volumes dryrun) /\
  own (PauseContainer client c duration dryrun) /\
  own (NetemContainer client c netInterface netemCmd targetIP duration
         dryrun).
Proof.
  cbv zeta. repeat split.
  - unfold KillContainer. api. destruct dryrun; cbn [negb]; steps;
      [addressed|].
    destruct (dockerclient.KillContainer _ _ _ _); steps; addressed.
  - apply StopContainer_addresses.
  - unfold RemoveContainer. api. destruct dryrun; cbn [negb]; steps;
      addressed.
  - unfold PauseContainer. api. destruct dryrun; cbn [negb]; steps;
      [addressed|].
    destruct (dockerclient.PauseContainer _ _ _); steps; [addressed|].
    destruct (dockerclient.UnpauseContainer _ _ _); steps; addressed.
  - apply NetemContainer_addresses.
Qed.

(** X11. A stop that is not dry returns nil only when the last thing it
    did was an inspect of the container that failed; in every other run it
    returns an error. *)
Theorem stop_returns_nil_only_after_a_failed_inspect c wait w :
  Returns (StopContainer client c wait false) w
    (fun r evs _ =>
       (exists e, r = Some e)
       \/
       (r = nil /\
        exists before e,
          effects evs =
            before ++ [ECall (CInspectContainer (ID c)) (RErr e)])).
Proof.
  eapply Returns_weaken; [apply StopContainer_trace|].
  intros r evs _ [_ [(e & _ & ->)|(before & polls & ended & after & -> & Hb
                                   & Hp & _ & _ & H)]]; [eauto|].
  destruct H as [(e & _ & ->)|(polls' & ended' & Hp' & Ha & ->)]; [eauto|].
  destruct ended' as [| |e]; [eauto|eauto|right]. split; [reflexivity|].
  destruct (polling_failed_last _ _ _ Hp') as [last ->].
  exists (ECall (CKillContainer (ID c) (stopSignalOf c)) RNil
          :: polls ++ ECall (CKillContainer (ID c) defaultKillSignal) RNil
          :: last), e.
  rewrite !effects_app, Hb, Ha, (polling_effects _ _ _ Hp).
  cbn [app]. f_equal. rewrite <- app_assoc. reflexivity.
Qed.

Lemma execOnContainer_no_sleep c cmd privileged w :
  Returns (execOnContainer client c cmd privileged) w
    (fun _ evs _ => filter isSleep evs = []).
Proof.
  unfold execOnContainer. api. steps.
  destruct (engineapi.ContainerExecCreate _ _ _ _) as [execID|e]; steps;
    reflexivity.
Qed.

Tactic Notation "exec_no_sleep" ident(r) ident(H) :=
  eapply Returns_weaken; [apply execOnContainer_no_sleep|];
  intros r ? ? H; cbv beta in H.

Ltac no_sleep :=
  rewrite ?app_nil_r; cbn [app filter isSleep];
  repeat (rewrite filter_app; cbn [app filter isSleep]);
  repeat match goal with H : filter isSleep _ = [] |- _ => rewrite H end;
  cbn [app]; reflexivity.

Lemma netem_setup_no_sleep c netInterface netemCmd targetIP duration
    (dryrun : bool) w :
  Returns
    (match targetIP with
     | None =>
         log.Infof "%sRunning netem command '%s' on container %s for %s"
           [AStr (if dryrun then dryRunPrefix else ""); AStr netemCmd;
            AStr (ID c); ADur duration] ;;
         startNetemContainer client c netInterface netemCmd dryrun
     | Some ip =>
         log.Infof
           "%sRunning netem command '%s' on container %s with filter %s for %s"
           [AStr (if dryrun then dryRunPrefix else ""); AStr netemCmd;
            AStr (ID c); AStr (net.String_ ip); ADur duration] ;;
         startNetemContainerIPFilter client c netInterface netemCmd
           (net.String_ ip) dryrun
     end) w
    (fun _ evs _ => filter isSleep evs = []).
Proof.
  unfold startNetemContainer, startNetemContainerIPFilter.
  destruct dryrun; cbn [negb]; destruct targetIP as [ip|]; steps;
    try reflexivity.
  - exec_no_sleep r1 H1. destruct r1 as [e|]; steps; [no_sleep|].
    exec_no_sleep r2 H2. destruct r2 as [e|]; steps; [no_sleep|].
    exec_no_sleep r3 H3. no_sleep.
  - exec_no_sleep r1 H1. no_sleep.
Qed.

End MoreClientFacts.

(** ** The argv of the tc commands *)

Section SplitFacts.
Import strings reInterface.

Lemma splitOn_nonempty sep s : splitOn sep s <> [].
Proof.
  destruct s as [|a s]; cbn; [discriminate|].
  destruct (Ascii.eqb a sep); [discriminate|].
  destruct (splitOn sep s); discriminate.
Qed.

Lemma splitOn_append sep s1 s2 :
  splitOn sep (s1 +++ String sep s2) = splitOn sep s1 ++ splitOn sep s2.
Proof.
  induction s1 as [|a s1 IH]; cbn.
  - now rewrite Ascii.eqb_refl.
  - rewrite IH. destruct (Ascii.eqb a sep); [reflexivity|].
    pose proof (splitOn_nonempty sep s1).
    destruct (splitOn sep s1); [congruence|reflexivity].
Qed.

Lemma splitOn_one_token s :
  allOf notSpace s = true -> splitOn " " s = [s].
Proof.
  induction s as [|a s IH]; [reflexivity|]. cbn.
  intros H. apply andb_prop in H as [Ha Hs]. unfold notSpace in Ha.
  destruct (Ascii.eqb a " "); [discriminate|]. now rewrite IH.
Qed.

Lemma allOf_append p s t :
  allOf p s = true -> allOf p t = true -> allOf p (s +++ t) = true.
Proof.
  induction s as [|a s IH]; cbn; [auto|]. intros H Ht.
  apply andb_prop in H as [-> Hs]. cbn. auto.
Qed.

Lemma allOf_weaken (p q : ascii -> bool) s :
  (forall a, p a = true -> q a = true) ->
  allOf p s = true -> allOf q s = true.
Proof.
  intros Hpq. induction s as [|a s IH]; cbn; [auto|]. intros H.
  apply andb_prop in H as [Ha Hs]. now rewrite (Hpq a Ha), IH.
Qed.

Lemma letter_notSpace a : isLetter a = true -> notSpace a = true.
Proof.
  destruct a as [[] [] [] [] [] [] [] []]; intros H;
    solve [reflexivity | discriminate H].
Qed.

Lemma digit_notSpace a : isDigit a = true -> notSpace a = true.
Proof.
  destruct a as [[] [] [] [] [] [] [] []]; intros H;
    solve [reflexivity | discriminate H].
Qed.

(** A name that passes the check of [netemDelay] holds no space. *)
Lemma checked_name_has_no_space s :
  FindString s = s -> allOf notSpace s = true.
Proof.
  intros H. apply FindString_fixed in H.
  destruct H as [->|(l & d & -> & _ & Hl & Hd & _)]; [reflexivity|].
  apply allOf_append.
  - exact (allOf_weaken _ _ l letter_notSpace Hl).
  - exact (allOf_weaken _ _ d digit_notSpace Hd).
Qed.

Lemma setup_argv netInterface netemCmd :
  allOf notSpace netInterface = true ->
  Split ("tc qdisc add dev " +++ netInterface +++ " root netem " +++
         ToLower netemCmd) " " =
  ["tc"; "qdisc"; "add"; "dev"; netInterface; "root"; "netem"] ++
  Split (ToLower netemCmd) " ".
Proof.
  intros H. unfold Split.
  change ("tc qdisc add dev " +++ netInterface +++ " root netem " +++
          ToLower netemCmd)
    with ("tc qdisc add dev" +++
          String " " (netInterface +++
                      String " " ("root netem" +++
                                  String " " (ToLower netemCmd)))).
  rewrite !splitOn_append, (splitOn_one_token _ H). reflexivity.
Qed.

Lemma teardown_argv netInterface :
  allOf notSpace netInterface = true ->
  Split ("tc qdisc del dev " +++ netInterface +++ " root netem") " " =
  ["tc"; "qdisc"; "del"; "dev"; netInterface; "root"; "netem"].
Proof.
  intros H. unfold Split.
  change ("tc qdisc del dev " +++ netInterface +++ " root netem")
    with ("tc qdisc del dev" +++
          String " " (netInterface +++ String " " "root netem")).
  rewrite !splitOn_append, (splitOn_one_token _ H). reflexivity.
Qed.
End SplitFacts.

Section ArgvFacts.
Import container.
Variable client : dockerClient.

Lemma execSession_first id cmd evs r :
  execSession id cmd evs r ->
  exists reply rest,
    evs = ECall (CContainerExecCreate id (execConfig cmd)) reply :: rest.
Proof. intros [e|execID r']; eauto. Qed.

(** X10. An interface name that passes the check of [netemDelay] fills
    exactly one element of the argv of the tc commands: the setup exec of
    the unfiltered mode is created with tc qdisc add dev <name> root netem
    followed by the words of the lowercased specification, and the teardown
    exec with tc qdisc del dev <name> root netem. *)
Theorem checked_interface_is_one_argument c netInterface netemCmd w :
  reInterface.FindString netInterface = netInterface ->
  Returns (startNetemContainer client c netInterface netemCmd false) w
    (fun _ evs _ =>
       exists reply rest,
         effects evs =
           ECall (CContainerExecCreate (ID c)
                    {| Privileged := true;
                       Cmd := ["tc"; "qdisc"; "add"; "dev"; netInterface;
                               "root"; "netem"] ++
                              strings.Split (strings.ToLower netemCmd) " " |})
             reply :: rest) /\
  Returns (stopNetemContainer client c netInterface false) w
    (fun _ evs _ =>
       exists reply rest,
         effects evs =
           ECall (CContainerExecCreate (ID c)
                    {| Privileged := true;
                       Cmd := ["tc"; "qdisc"; "del"; "dev"; netInterface;
                               "root"; "netem"] |})
             reply :: rest).
Proof.
  intros Hchecked. apply checked_name_has_no_space in Hchecked. split.
  - unfold startNetemContainer. cbn [negb]. steps.
    eapply Returns_weaken; [apply execOnContainer_session|].
    intros r evs w' H. cbv beta in H. effs.
    apply execSession_first in H as (reply & rest & ->).
    exists reply, rest. unfold execConfig.
    now rewrite (setup_argv netInterface netemCmd Hchecked).
  - unfold stopNetemContainer. cbn [negb]. steps.
    eapply Returns_weaken; [apply execOnContainer_session|].
    intros r evs w' H. cbv beta in H. effs.
    apply execSession_first in H as (reply & rest & ->).
    exists reply, rest. unfold execConfig.
    now rewrite (teardown_argv netInterface Hchecked).
Qed.

End ArgvFacts.

(** The commands of [TestNetemContainer_Success]. *)
Lemma checked_interface_is_one_argument_witness :
  Returns (container.startNetemContainer mock.exitsAndStays mock.foo "eth0"
             "delay 1000ms" false) World0
    (fun _ evs _ =>
       exists reply rest,
         effects evs =
           ECall (CContainerExecCreate "abc123"
                    {| Privileged := true;
                       Cmd := ["tc"; "qdisc"; "add"; "dev"; "eth0";
                               "root"; "netem"; "delay"; "1000ms"] |})
             reply :: rest) /\
  Returns (container.stopNetemContainer mock.exitsAndStays mock.foo "eth0" false) World0
    (fun _ evs _ =>
       exists reply rest,
         effects evs =
           ECall (CContainerExecCreate "abc123"
                    {| Privileged := true;
                       Cmd := ["tc"; "qdisc"; "del"; "dev"; "eth0";
                               "root"; "netem"] |})
             reply :: rest).
Proof.
  apply (checked_interface_is_one_argument mock.exitsAndStays mock.foo
           "eth0" "delay 1000ms" World0).
  reflexivity.
Defined.

(** ** Listing *)

Section ListingFacts.
Import listing.
Variable api : Client.

Lemma rangeContainers_filter fn running : forall cs tr,
  rangeContainers api fn running (filter fn cs) tr =
  (let '(r, tr') := rangeContainers api allContainers running cs tr in
   (filtered fn r, tr')).
Proof.
  induction running as [|rc rest IH]; intros cs tr; [reflexivity|].
  cbn [rangeContainers]. unfold then_, ask, Debug, unit_.
  destruct (InspectContainer api tr (listedId rc)) as [ci|e]; [|reflexivity].
  cbn [shownDetails].
  destruct (InspectImage api _ (Image ci)) as [ii|e]; [|reflexivity].
  cbn [shownImage allContainers].
  rewrite <- IH. rewrite filter_app. cbn [filter].
  destruct (fn _); [reflexivity|now rewrite app_nil_r].
Qed.

(** X12. The filter is applied after the inspection and decides nothing
    else: listing with a filter makes the same queries and logs the same
    lines as listing every container, fails with the same error, and on
    success returns the containers of the full listing that the filter
    accepts, in the same order. *)
Theorem ListContainers_filters_afterwards fn tr :
  ListContainers api fn tr =
  (let '(r, tr') := ListContainers api allContainers tr in
   (filtered fn r, tr')).
Proof.
  unfold ListContainers, then_, ask, Debug, unit_.
  destruct (ListContainers_ api _ false false "") as [running|e];
    [|reflexivity].
  apply (rangeContainers_filter fn running []).
Qed.

Lemma asked_app a b : asked (a ++ b) = asked a ++ asked b.
Proof. apply filter_app. Qed.

Lemma rangeContainers_walk running : forall cs tr,
  exists evs r,
    rangeContainers api allContainers running cs tr =
      (match r with Ok l => Ok (cs ++ l) | Err e => Err e end, tr ++ evs) /\
    walk running (asked evs) r.
Proof.
  induction running as [|rc rest IH]; intros cs tr.
  - exists [], (Ok []). cbn. rewrite !app_nil_r. split; [reflexivity|constructor].
  - cbn [rangeContainers]. unfold then_, ask, Debug, unit_.
    destruct (InspectContainer api tr (listedId rc)) as [ci|e].
    2:{ eexists [_], (Err e). split; [reflexivity|]. apply walk_inspect_fails. }
    cbn [shownDetails].
    destruct (InspectImage api _ (Image ci)) as [ii|e].
    2:{ eexists [_; _; _], (Err e). split.
        - rewrite <- !app_assoc. reflexivity.
        - apply walk_image_fails. }
    cbn [shownImage allContainers].
    destruct (IH (cs ++ [{| containerInfo := ci; imageInfo := ii |}])
                (((tr ++ [Asked (QInspectContainer (listedId rc)) (ADetails ci)]) ++
                  [Logged DebugLevel "Running container: %s - (%s)"
                     [AStr (Name ci); AStr (Id ci)]]) ++
                 [Asked (QInspectImage (Image ci)) (AImage ii)]))
      as (evs & r & Heq & Hw).
    exists (Asked (QInspectContainer (listedId rc)) (ADetails ci)
            :: Logged DebugLevel "Running container: %s - (%s)"
                 [AStr (Name ci); AStr (Id ci)]
            :: Asked (QInspectImage (Image ci)) (AImage ii) :: evs),
           (match r with
            | Ok cs0 => Ok ({| containerInfo := ci; imageInfo := ii |} :: cs0)
            | Err e => Err e
            end).
    split.
    + rewrite Heq. rewrite <- !app_assoc. cbn [app].
      destruct r; [now rewrite <- app_assoc | reflexivity].
    + cbn. apply walk_next. exact Hw.
Qed.

(** X13. A listing asks the daemon for its running containers once; when
    that fails it returns the error and asks nothing more.  Otherwise it
    walks the list in order, inspecting each entry and then the image that
    the inspection names, stops at the first query that fails, returning
    its error and no container, and when no query fails returns the
    inspected containers that the filter accepts. *)
Theorem ListContainers_walks_the_list fn tr :
  exists evs r,
    ListContainers api fn tr = (filtered fn r, tr ++ evs) /\
    ((exists e,
         asked evs = [Asked (QListContainers false false "") (AErr e)] /\
         r = Err e)
     \/
     (exists running rest,
         asked evs =
           Asked (QListContainers false false "") (AListed running) :: rest /\
         walk running rest r)).
Proof.
  unfold ListContainers, then_, ask, Debug, unit_.
  destruct (ListContainers_ api _ false false "") as [running|e].
  - cbn [shownListed].
    pose proof (rangeContainers_filter fn running []) as Hf.
    cbn [filter] in Hf. rewrite Hf. clear Hf.
    destruct (rangeContainers_walk running []
                ((tr ++ [Logged DebugLevel "Retrieving running containers" []]) ++
                 [Asked (QListContainers false false "") (AListed running)]))
      as (evs & r & Heq & Hw).
    rewrite Heq.
    eexists (_ :: _ :: evs), r. split.
    + rewrite <- !app_assoc. cbn [app]. destruct r; reflexivity.
    + right. exists running, (asked evs). split; [reflexivity|exact Hw].
  - eexists [_; _], (Err e). split.
    + rewrite <- !app_assoc. reflexivity.
    + left. exists e. split; reflexivity.
Qed.
End ListingFacts.

(** [TestListContainers_Success] and [TestListContainers_Filter] *)
Example list_one_container :
  fst (listing.ListContainers listing.oneContainer listing.allContainers []) =
    Ok [{| listing.containerInfo :=
             {| listing.Id := "foo"; listing.Name := "bar";
                listing.Image := "abc123"; listing.Labels := [];
                listing.State := {| Running := true |} |};
           listing.imageInfo := {| listing.imageId := "abc123" |} |}] /\
  fst (listing.ListContainers listing.oneContainer listing.noContainers []) =
    Ok [].
Proof. split; reflexivity. Qed.
